(** * check_cisco_stack.py: a shallow embedding and its specification

    The plugin polls a Cisco switch stack over SNMP, joins the member-number
    and member-state tables into a dict of dicts, reduces it together with the
    ring-redundancy flag to a Nagios verdict, prints one line and exits.

    Modelling decisions.
    - Python [str] is [string]; easysnmp delivers every value and oid as [str],
      so status codes and the ring flag are strings such as ["4"] and ["1"].
    - The exit-code constants are Python ints, here [Z].
    - A member record ([{'number': .., 'index': .., 'status_num': ..,
      'status': ..}]) is a [gmap string string]; reading an absent key raises
      [KeyError] as in Python.
    - The member table is a dict whose iteration order is its insertion
      order; it is an association list updated the way a dict is.
    - [print], [logging.debug], [sys.exit], uncaught exceptions and the SNMP
      requests are effects: a computation yields the list of events it
      performed, in order, and how it ended. *)

From Stdlib Require Import ZArith String Ascii List Permutation Lia.
From stdpp Require Import base strings gmap list pretty.

Local Open Scope string_scope.
Local Open Scope Z_scope.

(** ** Exit codes and status messages (lines 84-96) *)

Definition OK : Z := 0.
Definition WARNING : Z := 1.
Definition CRITICAL : Z := 2.
Definition UNKNOWN : Z := 3.

Definition __program_name__ : string := "Cisco Stack".
Definition __version__ : string := "1.1".

Definition exit_status (x : Z) : string :=
  if decide (x = 0) then "OK"
  else if decide (x = 1) then "WARNING"
  else if decide (x = 2) then "CRITICAL"
  else if decide (x = 3) then "UNKNOWN"
  else "UNKNOWN".

(** ** Stack states (lines 321-334)

    The table is keyed by the decimal strings ['1'] .. ['11'];
    [.get(x, 'UNKNOWN')] supplies the default. *)

Definition stack_state_table : list (string * string) :=
  [ ("1", "waiting");
    ("2", "progressing");
    ("3", "added");
    ("4", "ready");
    ("5", "sdmMismatch");
    ("6", "verMismatch");
    ("7", "featureMismatch");
    ("8", "newMasterInit");
    ("9", "provisioned");
    ("10", "invalid");
    ("11", "removed") ].

Fixpoint assoc_get {K V : Type} `{EqDecision K} (k : K) (d : list (K * V))
  : option V :=
  match d with
  | [] => None
  | (k', v) :: d' => if decide (k = k') then Some v else assoc_get k d'
  end.

Definition stack_state (x : string) : string :=
  default "UNKNOWN" (assoc_get x stack_state_table).

(** ** Data model *)

(** An easysnmp [SNMPVariable], as far as the plugin reads it. *)
Record SNMPVariable := { oid : string; value : string }.

(** One member record, a Python dict with string keys and values. *)
Abbreviation member_dict := (gmap string string).

(** The member table, keyed by SNMP index, in insertion order. *)
Abbreviation table := (list (string * gmap string string)).

(** [d[k] = v] on an insertion-ordered dict: an existing key keeps its
    position, a new key goes last. *)
Fixpoint dict_set {K V : Type} `{EqDecision K} (k : K) (v : V) (d : list (K * V))
  : list (K * V) :=
  match d with
  | [] => [(k, v)]
  | (k', v') :: d' =>
      if decide (k = k') then (k, v) :: d' else (k', v') :: dict_set k v d'
  end.

(** The namespace argparse returns (line 438). *)
Record Namespace := {
  host : string;
  community : string;
  debug : bool;
  version : bool;
  subparser_name : option string;
  switchnumbers : option (list Z);
  expectedstate : option (list Z);
  test : bool;
  tswitchnumbers : option (list Z);
  texpectedstate : option (list Z)
}.

(** ** Effects *)

Inductive exception :=
| KeyError (key : string)
| UnboundLocalError (name : string)
| TypeError (msg : string)
| AttributeError (msg : string).

(** The SNMP agent behind [Session(hostname, community, version=2)]: what
    [bulkwalk] and [get] answer for an oid.  A falsy answer of [get] is
    [None]; a falsy answer of [bulkwalk] is the empty list. *)
Record Session := {
  bulkwalk : string -> list SNMPVariable;
  get : string -> option SNMPVariable
}.

Abbreviation network := (string -> string -> Session).

Inductive event :=
| Print (text : string)                      (* print(text) on stdout *)
| PrintArgs (args : Namespace)               (* print(args) *)
| Debug (msg : string)                       (* logging.debug(msg) *)
| DebugMember (v : SNMPVariable)             (* 'Member info: {0}'.format(member) *)
| DebugTable (t : table)              (* 'Stack info table to return: {0}' *)
| BasicConfig                                (* logging.basicConfig(level=DEBUG, ..) *)
| ArgparseHelp                               (* argparse prints its help *)
| ArgparseError (msg : string)               (* argparse prints usage and msg on stderr *)
| Bulkwalk (hostname comm : string) (o : string)   (* session.bulkwalk(o) *)
| Get (hostname comm : string) (o : string).       (* session.get(o) *)

Inductive outcome (A : Type) :=
| Return (a : A)
| SysExit (code : Z)
| Raise (e : exception).
Arguments Return {A} a.
Arguments SysExit {A} code.
Arguments Raise {A} e.

(** A computation: the events performed, oldest first, and the outcome. *)
Definition py (A : Type) : Type := list event * outcome A.

Definition emit (e : event) : py unit := ([e], Return tt).
Definition sys_exit {A} (code : Z) : py A := ([], SysExit code).
Definition raise {A} (e : exception) : py A := ([], Raise e).

#[global] Instance py_ret : MRet py := fun A a => ([], Return a).

#[global] Instance py_bind : MBind py := fun A B k m =>
  match m with
  | (tr, Return a) => let '(tr', o) := k a in ((tr ++ tr')%list, o)
  | (tr, SysExit c) => (tr, SysExit c)
  | (tr, Raise e) => (tr, Raise e)
  end.

Definition trace {A} (m : py A) : list event := fst m.
Definition result {A} (m : py A) : outcome A := snd m.

Definition print (s : string) : py unit := emit (Print s).
Definition logging_debug (s : string) : py unit := emit (Debug s).

(** [for x in xs: body], threading the loop-carried variables [s]. *)
Fixpoint for_each {A S : Type} (xs : list A) (body : A -> S -> py S) (s : S)
  : py S :=
  match xs with
  | [] => mret s
  | x :: xs' => s' ← body x s; for_each xs' body s'
  end.

(** [d[k]] on a member record. *)
Definition getitem (m : member_dict) (k : string) : py string :=
  match m !! k with
  | Some v => mret v
  | None => raise (KeyError k)
  end.

(** ** evaluate_results (lines 369-387)

    The loop carries [message] (the list of fragments) and [result]. *)


(** The body of the [for] loop (lines 374-378). *)
Definition check_member (item : string * member_dict) (st : list string * Z)
  : py (list string * Z) :=
  let '(i, member) := item in
  let '(message, result) := st in
  number ← getitem member "number";
  status ← getitem member "status";
  logging_debug ("Member " +:+ number +:+ " is " +:+ status) ;;
  number ← getitem member "number";
  status ← getitem member "status";
  let message := (message ++ [number +:+ ": " +:+ status +:+ ", "])%list in
  status_num ← getitem member "status_num";
  if decide (status_num <> "4") then
    let result := CRITICAL in
    logging_debug "Status changed to CRITICAL" ;;
    mret (message, result)
  else mret (message, result).

Definition evaluate_results (stack : table) (ring : string) : py (Z * string) :=
  let message := ["Members: "] in
  let result := OK in
  logging_debug "Checking each stack member" ;;
  '(message, result) ← for_each stack check_member (message, result);
  '(message, result) ←
    (if decide (ring = "1") then
       mret ((message ++ ["Stack Ring is redundant"])%list, result)
     else
       let message := (message ++ ["Stack Ring is non-redundant"])%list in
       if decide (result = OK) then
         let result := WARNING in
         logging_debug "Status changed to WARNING" ;;
         mret (message, result)
       else mret (message, result));
  let message := String.concat "" message in
  mret (result, message).

(** ** plugin_exit (lines 223-227) *)

Definition plugin_exit (exitcode : Z) (message : string) : py unit :=
  logging_debug ("Exiting with status " +:+ pretty exitcode +:+ ". Message: " +:+ message) ;;
  let status := exit_status exitcode in
  print (__program_name__ +:+ " " +:+ status +:+ " - " +:+ message) ;;
  sys_exit exitcode.

(** ** get_stack_info (lines 255-276) *)

(** [s.rsplit(sep)]: every piece between separators, never the empty list. *)
Fixpoint rsplit (s : string) (sep : ascii) : list string :=
  match s with
  | EmptyString => [""]
  | String c s' =>
      if decide (c = sep) then "" :: rsplit s' sep
      else match rsplit s' sep with
           | w :: ws => String c w :: ws
           | [] => [String c ""]
           end
  end.

(** [l.pop()] as an expression: the last element. *)
Definition pop (l : list string) : string := List.last l "".

Definition session_bulkwalk (net : network) (hostname comm o : string)
  : py (list SNMPVariable) :=
  emit (Bulkwalk hostname comm o) ;; mret (bulkwalk (net hostname comm) o).

Definition session_get (net : network) (hostname comm o : string)
  : py (option SNMPVariable) :=
  emit (Get hostname comm o) ;; mret (get (net hostname comm) o).

(** The body of the first loop (lines 263-265). *)
Definition add_member (member : SNMPVariable) (member_table : table) : py table :=
  emit (DebugMember member) ;;
  let a : member_dict :=
    <["index" := pop (rsplit (oid member) ".")]> {["number" := value member]} in
  a_index ← getitem a "index";
  mret (dict_set a_index a member_table).

(** [member_table[index][key] = v] (lines 273, 274): the record is looked up,
    which raises [KeyError] when the index is absent, and updated in place. *)
Definition setitem_in (index key v : string) (member_table : table) : py table :=
  match assoc_get index member_table with
  | None => raise (KeyError index)
  | Some m => mret (dict_set index (<[key := v]> m) member_table)
  end.

(** The body of the second loop (lines 271-274). *)
Definition set_status (member : SNMPVariable) (member_table : table) : py table :=
  logging_debug ("Member info: " +:+ value member) ;;
  let index := pop (rsplit (oid member) ".") in
  member_table ← setitem_in index "status_num" (value member) member_table;
  setitem_in index "status" (stack_state (value member)) member_table.

Definition get_stack_info (net : network) (remote_ip comm : string)
  : py table :=
  let member_table : table := [] in
  stack_table_oid ← session_bulkwalk net remote_ip comm ".1.3.6.1.4.1.9.9.500.1.2.1.1.1";
  logging_debug "Walking stack table -- " ;;
  (if decide (stack_table_oid = []) then
     plugin_exit CRITICAL "Unable to retrieve SNMP stack table"
   else mret tt) ;;
  member_table ← for_each stack_table_oid add_member member_table;
  stack_status_oid ← session_bulkwalk net remote_ip comm ".1.3.6.1.4.1.9.9.500.1.2.1.1.6";
  logging_debug "Walking stack status -- " ;;
  (if decide (stack_status_oid = []) then
     plugin_exit CRITICAL "Unable to retrieve SNMP stack status"
   else mret tt) ;;
  member_table ← for_each stack_status_oid set_status member_table;
  emit (DebugTable member_table) ;;
  mret member_table.

(** ** get_ring_status (lines 349-357) *)

Definition get_ring_status (net : network) (remote_ip comm : string) : py string :=
  ring_status_oid ← session_get net remote_ip comm ".1.3.6.1.4.1.9.9.500.1.1.3.0";
  logging_debug "Getting stack ring redundancy status -- " ;;
  match ring_status_oid with
  | None =>
      plugin_exit CRITICAL "Unable to retrieve SNMP ring status" ;;
      (* not reached: [None.value] *)
      raise (AttributeError "'NoneType' object has no attribute 'value'")
  | Some ring_status_oid =>
      logging_debug ("Ring status: " +:+ value ring_status_oid) ;;
      let stack_ring_status := value ring_status_oid in
      mret stack_ring_status
  end.

(** ** The command line

    Both parsers ([argparse] at line 438 and [getopt] at line 184) read
    [sys.argv].  The model starts after lexing: a command line is the
    sequence of recognised top-level options followed, possibly, by the
    [part] sub-command and the values of its options.  Spellings
    ([-H x], [--host=x], clustered flags) and tokens neither parser
    recognises are outside the model. *)

Inductive cli_option :=
| OptHelp                       (* -h, --help *)
| OptVersion                    (* -v, --version *)
| OptHost (a : string)          (* -H, --host a *)
| OptCommunity (a : string)     (* -c, --community a *)
| OptDebug.                     (* -d, --debug *)

Record part_command := {
  part_name : string;                 (* 'part', 'particular' or 'partial' *)
  opt_S : option (list Z);            (* -S, --switchnumbers *)
  opt_E : option (list Z);            (* -E, --expectedstate *)
  opt_T : bool;                       (* -T, -test *)
  opt_tS : option (list Z);           (* -tS, --tswitchnumbers *)
  opt_tE : option (list Z)            (* -tE, --texpectedstate *)
}.

Record command_line := {
  options : list cli_option;
  subcommand : option part_command
}.

(** ** usage (lines 104-112) *)

Definition TAB : string := String "009"%char "".
Definition NL : string := String "010"%char "".

Definition usage_text : string :=
  NL +:+
  TAB +:+ "-h --help" +:+ TAB +:+ TAB +:+ "- Prints out this help message" +:+ NL +:+
  TAB +:+ "-v --version" +:+ TAB +:+ TAB +:+ "- Prints the version number" +:+ NL +:+
  TAB +:+ "-H --host <ip_address>" +:+ TAB +:+ "- IP address of the cisco stack" +:+ NL +:+
  TAB +:+ "-c --community <string>" +:+ TAB +:+ "- SNMP community string" +:+ NL +:+
  TAB +:+ "-d --debug" +:+ TAB +:+ TAB +:+ "- Verbose mode for debugging" +:+ NL.

Definition usage : py unit :=
  print usage_text ;;
  sys_exit UNKNOWN.

(** ** The argparse parser (lines 120-169)

    What [parser.parse_args()] does with a command line of the model:
    the built-in [-h] prints the help and exits 0 as soon as it is met; the
    sub-parser checks its choices and its required options when the
    sub-command is consumed; the required [-H/--host] is checked last.
    Every argparse error prints on stderr and exits with status 2. *)

Definition is_help (o : cli_option) : bool :=
  match o with OptHelp => true | _ => false end.

Definition last_host (os : list cli_option) : option string :=
  fold_left (fun acc o => match o with OptHost a => Some a | _ => acc end) os None.

Definition last_community (os : list cli_option) : string :=
  fold_left (fun acc o => match o with OptCommunity a => a | _ => acc end) os "Public".

Definition has_debug (os : list cli_option) : bool :=
  existsb (fun o => match o with OptDebug => true | _ => false end) os.

Definition has_version (os : list cli_option) : bool :=
  existsb (fun o => match o with OptVersion => true | _ => false end) os.

(** [choices=range(lo, hi)] with [nargs='+']. *)
Definition in_choices (lo hi : Z) (vs : option (list Z)) : bool :=
  match vs with
  | None => true
  | Some l => negb (bool_decide (l = [])) && forallb (fun v => (lo <=? v) && (v <? hi)) l
  end.

Definition argparse_error {A} (msg : string) : py A :=
  emit (ArgparseError msg) ;; sys_exit 2.

Definition subparser_parse_args (sub : part_command) : py unit :=
  if negb (bool_decide (part_name sub ∈ ["part"; "particular"; "partial"])) then
    argparse_error "argument subparser_name: invalid choice"
  else if negb (in_choices 1 9 (opt_S sub) && in_choices 1 11 (opt_E sub)
                && in_choices 1 9 (opt_tS sub) && in_choices 1 11 (opt_tE sub)) then
    argparse_error "invalid choice"
  else if negb (bool_decide (is_Some (opt_S sub)) && bool_decide (is_Some (opt_E sub))) then
    argparse_error "the following arguments are required: -S/--switchnumbers, -E/--expectedstate"
  else mret tt.

Definition parser_parse_args (argv : command_line) : py Namespace :=
  if existsb is_help (options argv) then
    emit ArgparseHelp ;; sys_exit 0
  else
    match subcommand argv with
    | Some sub => subparser_parse_args sub
    | None => mret tt
    end ;;
    match last_host (options argv) with
    | None => argparse_error "the following arguments are required: -H/--host"
    | Some h =>
        mret {| host := h;
                community := last_community (options argv);
                debug := has_debug (options argv);
                version := has_version (options argv);
                subparser_name := part_name <$> subcommand argv;
                switchnumbers := subcommand argv ≫= opt_S;
                expectedstate := subcommand argv ≫= opt_E;
                test := from_option opt_T false (subcommand argv);
                tswitchnumbers := subcommand argv ≫= opt_tS;
                texpectedstate := subcommand argv ≫= opt_tE |}
    end.

(** ** parse_args (lines 178-213)

    [getopt.getopt] stops at the first non-option argument, so it yields
    the top-level options in order and never sees the sub-command. *)

Record options_dict := { remote_ip : option string; opt_community : string }.

(** The body of the option loop of [parse_args] (lines 189-206). *)
Definition parse_option (o : cli_option) (options1 : options_dict) : py options_dict :=
  match o with
  | OptDebug =>
      emit BasicConfig ;;
      logging_debug "*** Debug mode started ***" ;;
      mret options1
  | OptVersion =>
      print (__program_name__ +:+ " plugin version " +:+ __version__) ;;
      sys_exit 0
  | OptHelp =>
      usage ;; mret options1
  | OptHost a =>
      mret {| remote_ip := Some a; opt_community := opt_community options1 |}
  | OptCommunity a =>
      mret {| remote_ip := remote_ip options1; opt_community := a |}
  end.

Definition parse_args (argv : command_line) : py options_dict :=
  let options0 := {| remote_ip := None; opt_community := "Public" |} in
  let opts := options argv in
  options1 ← for_each opts parse_option options0;
  logging_debug "Printing initial variables" ;;
  logging_debug ("remote_ip: " +:+ default "None" (remote_ip options1)) ;;
  logging_debug ("community: " +:+ opt_community options1) ;;
  (if decide (remote_ip options1 = None) then
     print "Requires host to check" ;;
     usage
   else mret tt) ;;
  mret options1.

(** ** get_part_status, get_part_status_test (lines 394-429) *)

Definition get_part_status (switchnumbers expectedstate : option (list Z)) : py Z :=
  mret 0.

(** [' '.join(str(x) for x in l)]; iterating [None] is a [TypeError]. *)
Definition join_ints (l : option (list Z)) : py string :=
  match l with
  | None => raise (TypeError "'NoneType' object is not iterable")
  | Some l => mret (String.concat " " (pretty <$> l))
  end.

(** [dict(zip(ks, vs))]. *)
Definition dict_zip (ks vs : list Z) : list (Z * Z) :=
  fold_left (fun d kv => dict_set kv.1 kv.2 d) (zip ks vs) [].

(** [str(d)] for a dict of ints. *)
Definition str_dict (d : list (Z * Z)) : string :=
  "{" +:+ String.concat ", " ((fun kv => pretty kv.1 +:+ ": " +:+ pretty kv.2) <$> d) +:+ "}".

(** [d1 == d2] on dicts: same keys with equal values, in any order. *)
Definition dict_eqb (d1 d2 : list (Z * Z)) : bool :=
  bool_decide (length d1 = length d2)
  && forallb (fun kv => bool_decide (assoc_get kv.1 d2 = Some kv.2)) d1.

Definition get_part_status_test
  (switchnumbers expectedstate tswitchnumbers texpectedstate : option (list Z))
  : py Z :=
  s ← join_ints switchnumbers; print ("switchnumbers " +:+ s) ;;
  s ← join_ints expectedstate; print ("expectedstate " +:+ s) ;;
  s ← join_ints tswitchnumbers; print ("tswitchnumbers " +:+ s) ;;
  s ← join_ints texpectedstate; print ("texpectedstate " +:+ s) ;;
  (if decide (switchnumbers = tswitchnumbers) then print "1st is equal"
   else print "1st is not equal") ;;
  (if decide (expectedstate = texpectedstate) then print "2nd is equal"
   else print "2nd is not equal") ;;
  let switeches_dict :=
    dict_zip (default [] switchnumbers) (default [] expectedstate) in
  print (str_dict switeches_dict) ;;
  let tswiteches_dict :=
    dict_zip (default [] tswitchnumbers) (default [] texpectedstate) in
  print (str_dict tswiteches_dict) ;;
  (if dict_eqb switeches_dict tswiteches_dict then print "The dicts are equal"
   else print "The dicts are not equal") ;;
  mret 0.

(** ** main (lines 436-452)

    [stack] and [ring] are bound only on the [else] branch; reading an
    unbound local raises [UnboundLocalError]. *)

Definition local {A} (name : string) (v : option A) : py A :=
  match v with
  | Some a => mret a
  | None => raise (UnboundLocalError name)
  end.

Definition main (net : network) (argv : command_line) : py unit :=
  args ← parser_parse_args argv;
  options ← parse_args argv;
  '(stack, ring) ←
    (if decide (subparser_name args = Some "part") then
       (if test args then
          part_result ← get_part_status_test (switchnumbers args) (expectedstate args)
                                             (tswitchnumbers args) (texpectedstate args);
          mret (None, None)
        else
          part_result ← get_part_status (switchnumbers args) (expectedstate args);
          mret (None, None))
     else
       stack ← get_stack_info net (host args) (community args);
       ring ← get_ring_status net (host args) (community args);
       mret (Some stack, Some ring));
  stack ← local "stack" stack;
  ring ← local "ring" ring;
  '(result, message) ← evaluate_results stack ring;
  plugin_exit result message ;;
  emit (PrintArgs args).

(** * Specification vocabulary *)

(** A record the evaluator can read: the three keys it indexes. *)
Definition complete (m : member_dict) : Prop :=
  is_Some (m !! "number") ∧ is_Some (m !! "status") ∧ is_Some (m !! "status_num").

(** A record as the collector builds it: complete, and the status name is
    the table's name of the status code. *)
Definition StackMember (m : member_dict) : Prop :=
  is_Some (m !! "number") ∧ is_Some (m !! "status_num") ∧
  m !! "status" = stack_state <$> m !! "status_num".

Definition ready (m : member_dict) : Prop := m !! "status_num" = Some "4".

#[global] Instance complete_dec m : Decision (complete m).
Proof. unfold complete. apply _. Defined.
#[global] Instance StackMember_dec m : Decision (StackMember m).
Proof. unfold StackMember. apply _. Defined.
#[global] Instance ready_dec m : Decision (ready m).
Proof. unfold ready. apply _. Defined.

(** The text one member contributes to the message. *)
Definition fragment (m : member_dict) : string :=
  default "" (m !! "number") +:+ ": " +:+ default "" (m !! "status") +:+ ", ".

Definition ring_fragment (ring : string) : string :=
  if decide (ring = "1") then "Stack Ring is redundant" else "Stack Ring is non-redundant".

(** The verdict of the rule for readable records. *)
Definition verdict (stack : table) (ring : string) : Z :=
  if decide (Forall (fun item => ready item.2) stack) then
    if decide (ring = "1") then OK else WARNING
  else CRITICAL.

Definition message_of (stack : table) (ring : string) : string :=
  "Members: " +:+ String.concat "" ((fun item => fragment item.2) <$> stack)
  +:+ ring_fragment ring.

(** The severity a run of the evaluator returns, if it returns. *)
Definition severity (m : py (Z * string)) : option Z :=
  match result m with
  | Return (r, _) => Some r
  | _ => None
  end.

Definition two_ready : table :=
  [ ("1001", {[ "number" := "1"; "index" := "1001"; "status_num" := "4"; "status" := "ready" ]});
    ("2001", {[ "number" := "2"; "index" := "2001"; "status_num" := "4"; "status" := "ready" ]}) ].

Definition one_provisioned : table :=
  [ ("1001", {[ "number" := "1"; "index" := "1001"; "status_num" := "4"; "status" := "ready" ]});
    ("2001", {[ "number" := "2"; "index" := "2001"; "status_num" := "9";
                "status" := "provisioned" ]}) ].

Definition is_stdout (e : event) : bool :=
  match e with Print _ | PrintArgs _ => true | _ => false end.

Definition is_network (e : event) : bool :=
  match e with Bulkwalk _ _ _ | Get _ _ _ => true | _ => false end.

Definition is_debug (e : event) : bool :=
  match e with Debug _ | DebugMember _ | DebugTable _ | BasicConfig => true | _ => false end.

(** The lines a run wrote on stdout, in order. *)
Definition stdout (tr : list event) : list event := List.filter is_stdout tr.

(** The SNMP requests a run sent, in order. *)
Definition requests (tr : list event) : list event := List.filter is_network tr.

(** The first statement of [evaluate_results] logs this record, and no other
    statement of the program logs it: a run invoked the evaluator exactly
    when the record is in its trace. *)
Definition evaluator_invoked (tr : list event) : Prop :=
  Debug "Checking each stack member" ∈ tr.

(** The last two statements main reaches (lines 450-451). *)
Definition report (stack : table) (ring : string) : py unit :=
  '(result, message) ← evaluate_results stack ring;
  plugin_exit result message.

(** The SNMP agent of the end-to-end scenarios: two members, numbered 1 and
    2, with the given state codes, and the given ring flag. *)
Definition two_member_agent (code1 code2 ring : string) : network := fun _ _ =>
  {| bulkwalk := fun o =>
       if decide (o = ".1.3.6.1.4.1.9.9.500.1.2.1.1.1") then
         [ {| oid := "iso.3.6.1.4.1.9.9.500.1.2.1.1.1.1001"; value := "1" |};
           {| oid := "iso.3.6.1.4.1.9.9.500.1.2.1.1.1.2001"; value := "2" |} ]
       else if decide (o = ".1.3.6.1.4.1.9.9.500.1.2.1.1.6") then
         [ {| oid := "iso.3.6.1.4.1.9.9.500.1.2.1.1.6.1001"; value := code1 |};
           {| oid := "iso.3.6.1.4.1.9.9.500.1.2.1.1.6.2001"; value := code2 |} ]
       else [];
     get := fun o =>
       if decide (o = ".1.3.6.1.4.1.9.9.500.1.1.3.0") then
         Some {| oid := "iso.3.6.1.4.1.9.9.500.1.1.3.0"; value := ring |}
       else None |}.

Definition check_host (a : string) : command_line :=
  {| options := [OptHost a]; subcommand := None |}.

(** The spec's table of status names, by integer code (section 4.1):
    codes 1..11, else "UNKNOWN". *)
Definition spec_status_name (code : Z) : string :=
  match code with
  | 1 => "waiting"
  | 2 => "progressing"
  | 3 => "added"
  | 4 => "ready"
  | 5 => "sdmMismatch"
  | 6 => "verMismatch"
  | 7 => "featureMismatch"
  | 8 => "newMasterInit"
  | 9 => "provisioned"
  | 10 => "invalid"
  | 11 => "removed"
  | _ => "UNKNOWN"
  end.

(** The decimal text of a code, as the device reports it. *)
Definition code_text (code : Z) : string := pretty code.

Definition index_of (v : SNMPVariable) : string := pop (rsplit (oid v) ".").

Definition number_record (v : SNMPVariable) : member_dict :=
  <["index" := index_of v]> {["number" := value v]}.

(** The table after the first loop. *)
Definition number_table (walk : list SNMPVariable) (t : table) : table :=
  fold_left (fun t v => dict_set (index_of v) (number_record v) t) walk t.

Definition OID_NUMBER : string := ".1.3.6.1.4.1.9.9.500.1.2.1.1.1".
Definition OID_STATE : string := ".1.3.6.1.4.1.9.9.500.1.2.1.1.6".
Definition OID_RING : string := ".1.3.6.1.4.1.9.9.500.1.1.3.0".

(** No statement outside [evaluate_results] logs the evaluator's record. *)
Definition not_evaluator (e : event) : Prop := e <> Debug "Checking each stack member".

(** With both walks answered, the run is the two requests, the first loop
    and then the second loop, which may raise. *)
Definition join_status (net : network) (h c : string) : py table :=
  member_table ← for_each (bulkwalk (net h c) OID_STATE) set_status
                   (number_table (bulkwalk (net h c) OID_NUMBER) []);
  emit (DebugTable member_table) ;;
  mret member_table.

(** An agent that answers the two walks and the get as given. *)
Definition agent_of (numbers states : list SNMPVariable) (ring : option string)
  : network := fun _ _ =>
  {| bulkwalk := fun o =>
       if decide (o = OID_NUMBER) then numbers
       else if decide (o = OID_STATE) then states
       else [];
     get := fun o =>
       if decide (o = OID_RING) then
         (fun v => {| oid := "iso.3.6.1.4.1.9.9.500.1.1.3.0"; value := v |}) <$> ring
       else None |}.

Definition number_1001 : SNMPVariable :=
  {| oid := "iso.3.6.1.4.1.9.9.500.1.2.1.1.1.1001"; value := "1" |}.
Definition state_1001 : SNMPVariable :=
  {| oid := "iso.3.6.1.4.1.9.9.500.1.2.1.1.6.1001"; value := "4" |}.
Definition state_2001 : SNMPVariable :=
  {| oid := "iso.3.6.1.4.1.9.9.500.1.2.1.1.6.2001"; value := "4" |}.

Definition no_arguments : command_line := {| options := []; subcommand := None |}.

(** [c in s] for a character and a string. *)
Definition occurs (c : ascii) (s : string) : Prop := In c (list_ascii_of_string s).

(** What the collector guarantees of a record stored under the key [k]: it
    carries its own index and a number, and its status name is the table's
    name of its status code (both absent until the state walk reaches it). *)
Definition collected (k : string) (m : member_dict) : Prop :=
  m !! "index" = Some k /\ is_Some (m !! "number") /\
  m !! "status" = stack_state <$> m !! "status_num".

(** The part of [main] that runs the check (lines 447-452). *)
Definition check_stack (net : network) (args : Namespace) : py unit :=
  stack ← get_stack_info net (host args) (community args);
  ring ← get_ring_status net (host args) (community args);
  '(result, message) ← evaluate_results stack ring;
  plugin_exit result message ;;
  emit (PrintArgs args).

(** The line the -v option prints (line 197). *)
Definition version_line : string := "Cisco Stack plugin version 1.1".

(** [print(args)] on line 452 is the only statement that prints the
    namespace. *)
Definition not_print_args (e : event) : Prop := forall a, e <> PrintArgs a.

(** The last entry of a walk whose oid ends in the index [k]. *)
Definition last_entry (k : string) (walk : list SNMPVariable) : option SNMPVariable :=
  fold_left (fun acc v => if decide (index_of v = k) then Some v else acc) walk None.

(** The statements of [main] after the two parsers (lines 440-452). *)
Definition main_body (net : network) (args : Namespace) : py unit :=
  '(stack, ring) ←
    (if decide (subparser_name args = Some "part") then
       (if test args then
          part_result ← get_part_status_test (switchnumbers args) (expectedstate args)
                                             (tswitchnumbers args) (texpectedstate args);
          mret (None, None)
        else
          part_result ← get_part_status (switchnumbers args) (expectedstate args);
          mret (None, None))
     else
       stack ← get_stack_info net (host args) (community args);
       ring ← get_ring_status net (host args) (community args);
       mret (Some stack, Some ring));
  stack ← local "stack" stack;
  ring ← local "ring" ring;
  '(result, message) ← evaluate_results stack ring;
  plugin_exit result message ;;
  emit (PrintArgs args).

(** Two namespaces that differ at most in their [debug] and [version]
    flags. *)
Definition same_request (a a' : Namespace) : Prop :=
  host a' = host a /\ community a' = community a /\
  subparser_name a' = subparser_name a /\ test a' = test a /\
  switchnumbers a' = switchnumbers a /\ expectedstate a' = expectedstate a /\
  tswitchnumbers a' = tswitchnumbers a /\ texpectedstate a' = texpectedstate a.

(** * Properties *)

(** ** The effect monad *)

Lemma result_bind {A B} (m : py A) (k : A -> py B) :
  result (m ≫= k) =
  match result m with
  | Return a => result (k a)
  | SysExit c => SysExit c
  | Raise e => Raise e
  end.
Proof.
  destruct m as [tr [a|c|e]]; cbn; try reflexivity.
  destruct (k a); reflexivity.
Qed.

Lemma trace_bind {A B} (m : py A) (k : A -> py B) :
  trace (m ≫= k) =
  (trace m ++ match result m with Return a => trace (k a) | _ => [] end)%list.
Proof.
  destruct m as [tr [a|c|e]]; cbn; rewrite ?app_nil_r; try reflexivity.
  destruct (k a); reflexivity.
Qed.

Lemma result_mret {A} (a : A) : result (mret a : py A) = Return a.
Proof. reflexivity. Qed.

Lemma result_getitem (m : member_dict) (k v : string) :
  m !! k = Some v -> getitem m k = mret v.
Proof. intros H. unfold getitem. rewrite H. reflexivity. Qed.

Lemma result_getitem_None (m : member_dict) (k : string) :
  m !! k = None -> getitem m k = raise (KeyError k).
Proof. intros H. unfold getitem. rewrite H. reflexivity. Qed.

(** ** The evaluation rule *)

Lemma StackMember_complete m : StackMember m -> complete m.
Proof.
  intros (Hn & [c Hc] & Hs). repeat split; auto.
  rewrite Hs, Hc. eexists; reflexivity.
Qed.

Lemma check_member_complete i m message r :
  complete m ->
  result (check_member (i, m) (message, r)) =
  Return ((message ++ [fragment m])%list, if decide (ready m) then r else CRITICAL).
Proof.
  intros ([n Hn] & [s Hs] & [c Hc]).
  unfold check_member, fragment.
  rewrite !(result_getitem _ _ _ Hn), !(result_getitem _ _ _ Hs), (result_getitem _ _ _ Hc).
  rewrite Hn, Hs. cbn.
  destruct (decide (ready m)) as [R|R]; unfold ready in R; rewrite Hc in R;
    destruct (decide (c <> "4")) as [Hne|Heq]; cbn; try reflexivity.
  - congruence.
  - exfalso. apply R. f_equal. destruct (decide (c = "4")); [assumption|contradiction].
Qed.

Lemma check_member_incomplete i m st :
  ~ complete m -> exists e, result (check_member (i, m) st) = Raise e.
Proof.
  intros Hc. destruct st as [message r]. unfold check_member.
  destruct (m !! "number") as [n|] eqn:Hn.
  2:{ rewrite (result_getitem_None _ _ Hn). eexists; reflexivity. }
  rewrite !(result_getitem _ _ _ Hn).
  destruct (m !! "status") as [s|] eqn:Hs.
  2:{ rewrite (result_getitem_None _ _ Hs). eexists; reflexivity. }
  rewrite !(result_getitem _ _ _ Hs).
  destruct (m !! "status_num") as [c|] eqn:Hsn.
  2:{ rewrite (result_getitem_None _ _ Hsn). eexists; reflexivity. }
  exfalso. apply Hc. unfold complete. rewrite Hn, Hs, Hsn. eauto.
Qed.

(** ** Strings *)

Lemma append_nil_r (s : string) : s +:+ "" = s.
Proof.
  induction s as [|c s IH]; [reflexivity|].
  change (String c (s +:+ "") = String c s). now rewrite IH.
Qed.

Lemma append_assoc (s1 s2 s3 : string) : (s1 +:+ s2) +:+ s3 = s1 +:+ (s2 +:+ s3).
Proof.
  induction s1 as [|c s1 IH]; [reflexivity|].
  change (String c ((s1 +:+ s2) +:+ s3) = String c (s1 +:+ s2 +:+ s3)).
  now rewrite IH.
Qed.

Lemma concat_empty_cons (x : string) (l : list string) :
  String.concat "" (x :: l) = x +:+ String.concat "" l.
Proof.
  destruct l as [|y l]; [symmetry; apply append_nil_r | reflexivity].
Qed.

Lemma concat_empty_app (l1 l2 : list string) :
  String.concat "" (l1 ++ l2)%list = String.concat "" l1 +:+ String.concat "" l2.
Proof.
  induction l1 as [|x l1 IH]; [reflexivity|].
  rewrite <- app_comm_cons, !concat_empty_cons, IH. now rewrite append_assoc.
Qed.

Lemma concat_empty_snoc (l : list string) (x : string) :
  String.concat "" (l ++ [x])%list = String.concat "" l +:+ x.
Proof. apply concat_empty_app. Qed.

#[local] Arguments String.concat : simpl never.

(** ** The loop of evaluate_results *)

Lemma ready_cons (i : string) (m : member_dict) (stack : table) (r : Z) :
  (if decide (Forall (fun item => ready item.2) stack)
   then (if decide (ready m) then r else CRITICAL) else CRITICAL) =
  (if decide (Forall (fun item => ready item.2) ((i, m) :: stack)) then r else CRITICAL).
Proof.
  repeat case_decide; try reflexivity;
    match goal with H : context [(_ :: _)] |- _ => rewrite Forall_cons in H end;
    cbn in *; tauto.
Qed.

Lemma for_each_check_complete (stack : table) message r :
  Forall (fun item => complete item.2) stack ->
  result (for_each stack check_member (message, r)) =
  Return ((message ++ ((fun item => fragment item.2) <$> stack))%list,
          if decide (Forall (fun item => ready item.2) stack) then r else CRITICAL).
Proof.
  intros Hc. revert message r.
  induction Hc as [|[i m] stack Hm Hc IH]; intros message r.
  - cbn. rewrite app_nil_r. reflexivity.
  - cbn [for_each]. rewrite result_bind, (check_member_complete _ _ _ _ Hm).
    rewrite IH, <- app_assoc, (ready_cons i). reflexivity.
Qed.

Lemma for_each_check_incomplete (stack : table) st :
  ~ Forall (fun item => complete item.2) stack ->
  exists e, result (for_each stack check_member st) = Raise e.
Proof.
  revert st. induction stack as [|[i m] stack IH]; intros st Hn.
  - exfalso. apply Hn. constructor.
  - cbn [for_each]. rewrite result_bind.
    destruct (decide (complete m)) as [Hm|Hm].
    + destruct st as [message r]. rewrite (check_member_complete _ _ _ _ Hm).
      apply IH. intros F. apply Hn. constructor; assumption.
    + destruct (check_member_incomplete i m st Hm) as [e He]. rewrite He. eauto.
Qed.

(** ** evaluate_results on readable and on unreadable tables *)

Lemma evaluate_results_complete (stack : table) (ring : string) :
  Forall (fun item => complete item.2) stack ->
  result (evaluate_results stack ring) = Return (verdict stack ring, message_of stack ring).
Proof.
  intros Hc. unfold evaluate_results.
  rewrite result_bind. cbn [logging_debug emit result snd].
  rewrite result_bind, (for_each_check_complete _ _ _ Hc).
  unfold verdict, message_of, ring_fragment.
  destruct (decide (ring = "1")) as [Hr|Hr];
    [|destruct (decide (Forall (fun item => ready item.2) stack)) as [F|F]];
    cbn; repeat case_decide; try discriminate; try contradiction; cbn;
    rewrite concat_empty_cons, concat_empty_snoc; reflexivity.
Qed.

Lemma evaluate_results_incomplete (stack : table) (ring : string) :
  ~ Forall (fun item => complete item.2) stack ->
  exists e, result (evaluate_results stack ring) = Raise e.
Proof.
  intros Hn. unfold evaluate_results.
  rewrite result_bind. cbn [logging_debug emit result snd].
  rewrite result_bind.
  destruct (for_each_check_incomplete stack (["Members: "], OK) Hn) as [e He].
  rewrite He. eauto.
Qed.

Lemma severity_evaluate_results (stack : table) (ring : string) :
  severity (evaluate_results stack ring) =
  if decide (Forall (fun item => complete item.2) stack)
  then Some (verdict stack ring) else None.
Proof.
  unfold severity. case_decide as Hc.
  - now rewrite (evaluate_results_complete _ _ Hc).
  - destruct (evaluate_results_incomplete stack ring Hc) as [e ->]. reflexivity.
Qed.

Lemma decide_Forall_Permutation {A B} (P : A -> Prop) `{forall x, Decision (P x)}
    (l1 l2 : list A) (a b : B) :
  Permutation l1 l2 ->
  (if decide (Forall P l1) then a else b) = (if decide (Forall P l2) then a else b).
Proof.
  intros HP.
  destruct (decide (Forall P l1)) as [F1|F1], (decide (Forall P l2)) as [F2|F2];
    try reflexivity; exfalso.
  - apply F2. eapply Permutation_Forall; eassumption.
  - apply F1. eapply Permutation_Forall; [symmetry|]; eassumption.
Qed.

Lemma verdict_Permutation (s1 s2 : table) (ring : string) :
  Permutation s1 s2 -> verdict s1 ring = verdict s2 ring.
Proof. intros HP. unfold verdict. now apply decide_Forall_Permutation. Qed.

Lemma verdict_range (stack : table) (ring : string) :
  verdict stack ring = OK \/ verdict stack ring = WARNING \/ verdict stack ring = CRITICAL.
Proof. unfold verdict. repeat case_decide; auto. Qed.

Lemma verdict_not_ready (stack : table) (ring : string) :
  Exists (fun item => ~ ready item.2) stack -> verdict stack ring = CRITICAL.
Proof.
  intros HE. unfold verdict. case_decide as F; [|reflexivity].
  exfalso. apply Exists_exists in HE as (x & Hx & Hn).
  rewrite Forall_forall in F. apply Hn, F, Hx.
Qed.

Lemma verdict_ready (stack : table) (ring : string) :
  Forall (fun item => ready item.2) stack ->
  verdict stack ring = if decide (ring = "1") then OK else WARNING.
Proof. intros F. unfold verdict. case_decide; [reflexivity|contradiction]. Qed.

(** ** Claims about evaluate_results *)

(** C10: on the empty member mapping the evaluator returns normally:
    [(OK, "Members: Stack Ring is redundant")] when ring is the string ["1"],
    and [(WARNING, "Members: Stack Ring is non-redundant")] for every other
    ring value. *)
Theorem evaluate_results_empty_table :
  result (evaluate_results [] "1") = Return (OK, "Members: Stack Ring is redundant") /\
  forall ring, ring <> "1" ->
    result (evaluate_results [] ring) = Return (WARNING, "Members: Stack Ring is non-redundant").
Proof.
  split; [reflexivity|].
  intros ring Hr.
  rewrite (evaluate_results_complete [] ring) by constructor.
  unfold verdict, message_of, ring_fragment.
  repeat case_decide; try contradiction; try reflexivity.
  exfalso; auto.
Qed.

Lemma evaluate_results_empty_table_witness :
  "0" <> "1" /\
  result (evaluate_results [] "0") = Return (WARNING, "Members: Stack Ring is non-redundant").
Proof.
  split; [discriminate|].
  apply (proj2 evaluate_results_empty_table "0"). discriminate.
Defined.

(** C9: whatever the member mapping and the ring value, a severity returned
    by the evaluator is OK, WARNING or CRITICAL and never UNKNOWN; on a
    mapping of readable records the evaluator does return one. *)
Theorem evaluate_results_never_unknown (stack : table) (ring : string) :
  (Forall (fun item => complete item.2) stack ->
   is_Some (severity (evaluate_results stack ring))) /\
  (forall r message,
     result (evaluate_results stack ring) = Return (r, message) ->
     (r = OK \/ r = WARNING \/ r = CRITICAL) /\ r <> UNKNOWN).
Proof.
  split.
  - intros Hc. rewrite severity_evaluate_results. case_decide; [eauto|contradiction].
  - intros r message Hr.
    assert (Hs : severity (evaluate_results stack ring) = Some r)
      by (unfold severity; now rewrite Hr).
    rewrite severity_evaluate_results in Hs. case_decide; [|discriminate].
    injection Hs as <-.
    pose proof (verdict_range stack ring) as [Hv|[Hv|Hv]]; rewrite Hv;
      (split; [auto|discriminate]).
Qed.

Lemma evaluate_results_never_unknown_witness :
  is_Some (severity (evaluate_results one_provisioned "0")) /\
  ((CRITICAL = OK \/ CRITICAL = WARNING \/ CRITICAL = CRITICAL) /\ CRITICAL <> UNKNOWN).
Proof.
  split.
  - apply (proj1 (evaluate_results_never_unknown one_provisioned "0")).
    repeat constructor; vm_compute; eauto.
  - apply (proj2 (evaluate_results_never_unknown one_provisioned "0") CRITICAL
             "Members: 1: ready, 2: provisioned, Stack Ring is non-redundant").
    vm_compute. reflexivity.
Defined.

(** C8: two member mappings holding the same members in different iteration
    orders get the same severity, for every ring value; the order can only
    show in the message text. *)
Theorem evaluate_results_severity_order_independent (stack1 stack2 : table) (ring : string) :
  Permutation stack1 stack2 ->
  severity (evaluate_results stack1 ring) = severity (evaluate_results stack2 ring).
Proof.
  intros HP. rewrite !severity_evaluate_results.
  rewrite (verdict_Permutation _ _ ring HP).
  now apply decide_Forall_Permutation.
Qed.

Lemma evaluate_results_severity_order_independent_witness :
  Permutation one_provisioned (rev one_provisioned) /\
  severity (evaluate_results one_provisioned "1") =
  severity (evaluate_results (rev one_provisioned) "1").
Proof.
  assert (HP : Permutation one_provisioned (rev one_provisioned))
    by apply Permutation_rev.
  split; [exact HP|].
  apply (evaluate_results_severity_order_independent _ _ "1" HP).
Defined.

(** ** What a run shows: stdout, the network, the evaluator *)

Section TraceInvariant.
Context (P : event -> Prop).

Lemma bind_trace_Forall {A B} (m : py A) (k : A -> py B) :
  Forall P (trace m) -> (forall a, Forall P (trace (k a))) ->
  Forall P (trace (m ≫= k)).
Proof.
  intros Hm Hk. rewrite trace_bind. apply Forall_app. split; [assumption|].
  destruct (result m); [apply Hk | constructor | constructor].
Qed.

Lemma for_each_trace_Forall {A S} (body : A -> S -> py S) :
  (forall x s, Forall P (trace (body x s))) ->
  forall xs s, Forall P (trace (for_each xs body s)).
Proof.
  intros Hb xs. induction xs as [|x xs IH]; intros s; cbn [for_each].
  - constructor.
  - apply bind_trace_Forall; [apply Hb | apply IH].
Qed.

Lemma mret_trace_Forall {A} (a : A) : Forall P (trace (mret a : py A)).
Proof. constructor. Qed.

Lemma raise_trace_Forall {A} (e : exception) : Forall P (trace (raise e : py A)).
Proof. constructor. Qed.

Lemma sys_exit_trace_Forall {A} (c : Z) : Forall P (trace (sys_exit c : py A)).
Proof. constructor. Qed.

Lemma emit_trace_Forall (e : event) : P e -> Forall P (trace (emit e)).
Proof. intros H. repeat constructor. exact H. Qed.

Lemma getitem_trace_Forall (m : member_dict) (k : string) :
  Forall P (trace (getitem m k)).
Proof. unfold getitem. destruct (m !! k); constructor. Qed.
End TraceInvariant.

(** Walks a computation, leaving one goal [P e] per event it can emit. *)
Ltac trace_steps :=
  repeat first
    [ apply mret_trace_Forall
    | apply raise_trace_Forall
    | apply sys_exit_trace_Forall
    | apply getitem_trace_Forall
    | apply bind_trace_Forall; [| intros ? ]
    | apply for_each_trace_Forall; intros ? ?
    | apply emit_trace_Forall
    | match goal with
      | |- Forall _ (trace (match ?x with _ => _ end)) => destruct x
      | |- Forall _ (trace (let '(_, _) := ?x in _)) => destruct x
      end ].

Lemma filter_none {A} (f : A -> bool) (l : list A) :
  Forall (fun x => f x = false) l -> List.filter f l = [].
Proof.
  induction 1 as [|x l Hx _ IH]; [reflexivity|]. cbn. now rewrite Hx.
Qed.

Lemma evaluate_results_trace_debug (stack : table) (ring : string) :
  Forall (fun e => is_debug e = true) (trace (evaluate_results stack ring)).
Proof.
  unfold evaluate_results, check_member, logging_debug. trace_steps; reflexivity.
Qed.

Lemma evaluate_results_invoked (stack : table) (ring : string) :
  evaluator_invoked (trace (evaluate_results stack ring)).
Proof.
  unfold evaluator_invoked, evaluate_results. rewrite trace_bind. cbn.
  apply list_elem_of_here.
Qed.

(** ** plugin_exit *)

Lemma plugin_exit_result (exitcode : Z) (message : string) :
  result (plugin_exit exitcode message) = SysExit exitcode.
Proof. reflexivity. Qed.

Lemma plugin_exit_stdout (exitcode : Z) (message : string) :
  stdout (trace (plugin_exit exitcode message)) =
  [Print ("Cisco Stack " +:+ exit_status exitcode +:+ " - " +:+ message)].
Proof. reflexivity. Qed.

Lemma report_complete (stack : table) (ring : string) :
  Forall (fun item => complete item.2) stack ->
  result (report stack ring) = SysExit (verdict stack ring) /\
  stdout (trace (report stack ring)) =
  [Print ("Cisco Stack " +:+ exit_status (verdict stack ring) +:+ " - "
          +:+ message_of stack ring)].
Proof.
  intros Hc. unfold report. split.
  - rewrite result_bind, (evaluate_results_complete _ _ Hc). reflexivity.
  - rewrite trace_bind, (evaluate_results_complete _ _ Hc).
    unfold stdout. rewrite List.filter_app.
    rewrite (filter_none is_stdout (trace (evaluate_results stack ring))).
    + reflexivity.
    + eapply Forall_impl; [apply evaluate_results_trace_debug|].
      intros [] He; (reflexivity || discriminate).
Qed.

Example get_stack_info_two_ready :
  result (get_stack_info (two_member_agent "4" "4" "1") "192.0.2.1" "Public")
  = Return two_ready.
Proof. vm_compute. reflexivity. Qed.

Lemma fragment_ready (m : member_dict) :
  StackMember m -> ready m ->
  fragment m = default "" (m !! "number") +:+ ": ready, ".
Proof.
  intros (_ & _ & Hs) Hr. unfold fragment. rewrite Hs, Hr. reflexivity.
Qed.

(** C1: for every non-empty member mapping whose members all have status
    code '4' (and, being member records, the status name of that code), with
    ring equal to the string "1", the evaluator returns OK and the message
    "Members: ", one "<number>: ready, " per member in iteration order, then
    "Stack Ring is redundant"; reported, the run exits 0 after printing
    "Cisco Stack OK - " and that message.  End to end, an agent with members
    1001 and 2001 numbered 1 and 2, both in state 4, and ring 1, makes the
    program print "Cisco Stack OK - Members: 1: ready, 2: ready, Stack Ring
    is redundant" and exit 0. *)
Theorem evaluate_results_all_ready_redundant :
  (forall stack : table,
     stack <> [] ->
     Forall (fun item => StackMember item.2 /\ ready item.2) stack ->
     let message :=
       "Members: "
       +:+ String.concat "" ((fun item => default "" (item.2 !! "number") +:+ ": ready, ")
                             <$> stack)
       +:+ "Stack Ring is redundant" in
     result (evaluate_results stack "1") = Return (OK, message) /\
     result (report stack "1") = SysExit 0 /\
     stdout (trace (report stack "1")) = [Print ("Cisco Stack OK - " +:+ message)]) /\
  (let run := main (two_member_agent "4" "4" "1") (check_host "192.0.2.1") in
   result run = SysExit 0 /\
   stdout (trace run) =
   [Print "Cisco Stack OK - Members: 1: ready, 2: ready, Stack Ring is redundant"]).
Proof.
  split; [|split; vm_compute; reflexivity].
  intros stack _ Hall message.
  assert (Hc : Forall (fun item => complete item.2) stack).
  { eapply Forall_impl; [exact Hall|]. intros item [Hm _]. now apply StackMember_complete. }
  assert (Hr : Forall (fun item => ready item.2) stack).
  { eapply Forall_impl; [exact Hall|]. now intros item [_ Hr]. }
  assert (Hmsg : message_of stack "1" = message).
  { unfold message_of, message, ring_fragment. cbn. do 3 f_equal.
    apply Forall_fmap_ext. eapply Forall_impl; [exact Hall|].
    intros item [Hm Hrd]. now apply fragment_ready. }
  assert (Hv : verdict stack "1" = OK) by now rewrite verdict_ready.
  destruct (report_complete stack "1" Hc) as [Hres Hout].
  rewrite (evaluate_results_complete _ _ Hc), Hres, Hout, Hv, Hmsg.
  repeat split; reflexivity.
Qed.

Lemma evaluate_results_all_ready_redundant_witness :
  result (evaluate_results two_ready "1")
  = Return (OK, "Members: 1: ready, 2: ready, Stack Ring is redundant") /\
  result (report two_ready "1") = SysExit 0 /\
  stdout (trace (report two_ready "1"))
  = [Print "Cisco Stack OK - Members: 1: ready, 2: ready, Stack Ring is redundant"].
Proof.
  apply (proj1 evaluate_results_all_ready_redundant two_ready).
  - discriminate.
  - repeat constructor; vm_compute; eauto.
Defined.

(** C2: for every member mapping and every ring value, if at least one member
    has a status code different from '4' the evaluator returns CRITICAL; a
    redundant ring (ring "1") does not downgrade it. *)
Theorem evaluate_results_member_not_ready_critical (stack : table) (ring : string) :
  Forall (fun item => complete item.2) stack ->
  Exists (fun item => exists code, item.2 !! "status_num" = Some code /\ code <> "4") stack ->
  (exists message, result (evaluate_results stack ring) = Return (CRITICAL, message)) /\
  (exists message, result (evaluate_results stack "1") = Return (CRITICAL, message)).
Proof.
  intros Hc He.
  assert (Hn : Exists (fun item : string * member_dict => ~ ready item.2) stack).
  { eapply Exists_impl; [exact He|]. intros item (code & Hcode & Hne) Hr.
    unfold ready in Hr. congruence. }
  split; eexists; rewrite (evaluate_results_complete _ _ Hc), (verdict_not_ready _ _ Hn);
    reflexivity.
Qed.

Lemma evaluate_results_member_not_ready_critical_witness :
  (exists message, result (evaluate_results one_provisioned "0") = Return (CRITICAL, message)) /\
  (exists message, result (evaluate_results one_provisioned "1") = Return (CRITICAL, message)).
Proof.
  apply (evaluate_results_member_not_ready_critical one_provisioned "0").
  - repeat constructor; vm_compute; eauto.
  - apply Exists_cons_tl, Exists_cons_hd. exists "9". split; [reflexivity|discriminate].
Defined.

(** C3: for every non-empty member mapping whose members all have status code
    '4', and every ring value other than the string "1", the evaluator
    returns WARNING, which is not CRITICAL, and a message that ends with
    "Stack Ring is non-redundant". *)
Theorem evaluate_results_all_ready_non_redundant_warning (stack : table) (ring : string) :
  stack <> [] ->
  Forall (fun item => complete item.2 /\ ready item.2) stack ->
  ring <> "1" ->
  exists before,
    result (evaluate_results stack ring)
    = Return (WARNING, before +:+ "Stack Ring is non-redundant") /\
    WARNING <> CRITICAL.
Proof.
  intros _ Hall Hring.
  assert (Hc : Forall (fun item => complete item.2) stack).
  { eapply Forall_impl; [exact Hall|]. now intros item [Hm _]. }
  assert (Hr : Forall (fun item => ready item.2) stack).
  { eapply Forall_impl; [exact Hall|]. now intros item [_ Hr]. }
  exists ("Members: " +:+ String.concat "" ((fun item => fragment item.2) <$> stack)).
  split; [|discriminate].
  rewrite (evaluate_results_complete _ _ Hc), (verdict_ready _ _ Hr).
  unfold message_of, ring_fragment.
  case_decide; [contradiction|]. now rewrite append_assoc.
Qed.

Lemma evaluate_results_all_ready_non_redundant_warning_witness :
  exists before,
    result (evaluate_results two_ready "2")
    = Return (WARNING, before +:+ "Stack Ring is non-redundant") /\
    WARNING <> CRITICAL.
Proof.
  apply (evaluate_results_all_ready_non_redundant_warning two_ready "2").
  - discriminate.
  - repeat constructor; vm_compute; eauto.
  - discriminate.
Defined.

(** ** The status-name lookup *)

Lemma code_cases (code : Z) :
  1 <= code <= 11 ->
  code ∈ [1; 2; 3; 4; 5; 6; 7; 8; 9; 10; 11].
Proof.
  intros H.
  assert (code = 1 \/ code = 2 \/ code = 3 \/ code = 4 \/ code = 5 \/ code = 6 \/
          code = 7 \/ code = 8 \/ code = 9 \/ code = 10 \/ code = 11) as Hc by lia.
  repeat destruct Hc as [Hc|Hc]; subst code;
    repeat first [apply list_elem_of_here | apply list_elem_of_further].
Qed.

(** C4: for every status code in 1..11 the lookup returns the name the fixed
    table gives it (1 waiting, 2 progressing, 3 added, 4 ready, 5 sdmMismatch,
    6 verMismatch, 7 featureMismatch, 8 newMasterInit, 9 provisioned,
    10 invalid, 11 removed); for every other input, numeric or not, it
    returns "UNKNOWN".  The lookup is a total function: it raises nothing. *)
Theorem stack_state_table_lookup :
  (forall code : Z, 1 <= code <= 11 ->
     stack_state (code_text code) = spec_status_name code) /\
  (forall x : string, (forall code : Z, 1 <= code <= 11 -> x <> code_text code) ->
     stack_state x = "UNKNOWN").
Proof.
  split.
  - intros code H. apply code_cases in H.
    repeat (apply elem_of_cons in H as [->|H]; [vm_compute; reflexivity|]).
    now apply elem_of_nil in H.
  - intros x H. unfold stack_state, stack_state_table. cbn [assoc_get].
    repeat (case_decide;
            [exfalso; subst x;
             first [ now apply (H 1) | now apply (H 2) | now apply (H 3)
                   | now apply (H 4) | now apply (H 5) | now apply (H 6)
                   | now apply (H 7) | now apply (H 8) | now apply (H 9)
                   | now apply (H 10) | now apply (H 11) ] |]).
    reflexivity.
Qed.

Lemma stack_state_table_lookup_witness :
  stack_state "9" = "provisioned" /\ stack_state "ready" = "UNKNOWN" /\
  stack_state "04" = "UNKNOWN" /\ stack_state "12" = "UNKNOWN" /\ stack_state "" = "UNKNOWN".
Proof.
  assert (Hother : forall x : string,
             x ∉ (code_text <$> [1; 2; 3; 4; 5; 6; 7; 8; 9; 10; 11]) ->
             forall code : Z, 1 <= code <= 11 -> x <> code_text code).
  { intros x Hx code Hc ->. apply Hx, list_elem_of_fmap. exists code.
    split; [reflexivity|]. now apply code_cases. }
  split; [apply (proj1 stack_state_table_lookup 9); lia|].
  repeat split; apply (proj2 stack_state_table_lookup); apply Hother;
    vm_compute; intros H; repeat (inversion H as [|? ? ? H']; clear H; rename H' into H).
Defined.

(** ** The two argument parsers *)

Lemma parser_parse_args_trace (argv : command_line) (args : Namespace) :
  result (parser_parse_args argv) = Return args ->
  trace (parser_parse_args argv) = [].
Proof.
  unfold parser_parse_args.
  destruct (existsb is_help (options argv)); [discriminate|].
  destruct (subcommand argv) as [sub|].
  - unfold subparser_parse_args.
    repeat (match goal with |- context [if ?b then _ else _] => destruct b end;
            [discriminate|]).
    destruct (last_host (options argv)); [reflexivity|discriminate].
  - destruct (last_host (options argv)); [reflexivity|discriminate].
Qed.

Lemma parser_parse_args_host (argv : command_line) (args : Namespace) :
  result (parser_parse_args argv) = Return args ->
  last_host (options argv) = Some (host args).
Proof.
  unfold parser_parse_args.
  destruct (existsb is_help (options argv)); [discriminate|].
  rewrite result_bind.
  destruct (result (match subcommand argv with
                    | Some sub => subparser_parse_args sub
                    | None => mret ()
                    end)); try discriminate.
  destruct (last_host (options argv)); [|discriminate].
  intros [= <-]. reflexivity.
Qed.

Lemma parse_option_loop_trace (opts : list cli_option) (s s' : options_dict) :
  result (for_each opts parse_option s) = Return s' ->
  Forall (fun e => is_debug e = true) (trace (for_each opts parse_option s)).
Proof.
  revert s. induction opts as [|o opts IH]; intros s; cbn [for_each].
  - constructor.
  - rewrite result_bind, trace_bind.
    destruct o; cbn; try discriminate; intros Hr;
      repeat (constructor; [reflexivity|]); eapply IH; eassumption.
Qed.

Lemma parse_args_unfold (argv : command_line) :
  parse_args argv =
  (options1 ← for_each (options argv) parse_option
                {| remote_ip := None; opt_community := "Public" |};
   logging_debug "Printing initial variables" ;;
   logging_debug ("remote_ip: " +:+ default "None" (remote_ip options1)) ;;
   logging_debug ("community: " +:+ opt_community options1) ;;
   (if decide (remote_ip options1 = None) then
      print "Requires host to check" ;; usage
    else mret tt) ;;
   mret options1).
Proof. reflexivity. Qed.

Lemma parse_args_trace (argv : command_line) (opts : options_dict) :
  result (parse_args argv) = Return opts ->
  Forall (fun e => is_debug e = true) (trace (parse_args argv)).
Proof.
  rewrite parse_args_unfold, result_bind, trace_bind.
  destruct (result (for_each (options argv) parse_option _)) as [s'| |] eqn:Hloop;
    try discriminate.
  intros Hr. apply Forall_app. split.
  - eapply parse_option_loop_trace; eassumption.
  - revert Hr. cbn. case_decide; cbn; [discriminate|].
    intros _. repeat (constructor; [reflexivity|]). constructor.
Qed.

(** ** Collection *)

Lemma add_member_eq (v : SNMPVariable) (t : table) :
  add_member v t = ([DebugMember v], Return (dict_set (index_of v) (number_record v) t)).
Proof.
  unfold add_member.
  rewrite (result_getitem _ "index" (pop (rsplit (oid v) "."))) by apply lookup_insert_eq.
  reflexivity.
Qed.

Lemma for_each_add_member (walk : list SNMPVariable) (t : table) :
  for_each walk add_member t = (DebugMember <$> walk, Return (number_table walk t)).
Proof.
  revert t. induction walk as [|v walk IH]; intros t; [reflexivity|].
  cbn [for_each]. rewrite add_member_eq. cbn. rewrite IH. reflexivity.
Qed.

Lemma get_stack_info_no_table (net : network) (h c : string) :
  bulkwalk (net h c) OID_NUMBER = [] ->
  get_stack_info net h c =
  ([ Bulkwalk h c OID_NUMBER;
     Debug "Walking stack table -- ";
     Debug "Exiting with status 2. Message: Unable to retrieve SNMP stack table";
     Print "Cisco Stack CRITICAL - Unable to retrieve SNMP stack table" ],
   SysExit 2).
Proof.
  intros H. unfold get_stack_info, session_bulkwalk. unfold OID_NUMBER in H.
  rewrite H. reflexivity.
Qed.

Lemma get_stack_info_no_status (net : network) (h c : string) :
  bulkwalk (net h c) OID_NUMBER <> [] ->
  bulkwalk (net h c) OID_STATE = [] ->
  get_stack_info net h c =
  (([ Bulkwalk h c OID_NUMBER; Debug "Walking stack table -- " ]
    ++ (DebugMember <$> bulkwalk (net h c) OID_NUMBER)
    ++ [ Bulkwalk h c OID_STATE;
         Debug "Walking stack status -- ";
         Debug "Exiting with status 2. Message: Unable to retrieve SNMP stack status";
         Print "Cisco Stack CRITICAL - Unable to retrieve SNMP stack status" ])%list,
   SysExit 2).
Proof.
  intros H1 H2. unfold get_stack_info, session_bulkwalk.
  unfold OID_NUMBER in *. unfold OID_STATE in *.
  rewrite H2. cbn.
  destruct (decide (bulkwalk (net h c) ".1.3.6.1.4.1.9.9.500.1.2.1.1.1" = []));
    [contradiction|].
  cbn. rewrite for_each_add_member. cbn. reflexivity.
Qed.

Lemma get_ring_status_no_value (net : network) (h c : string) :
  get (net h c) OID_RING = None ->
  get_ring_status net h c =
  ([ Get h c OID_RING;
     Debug "Getting stack ring redundancy status -- ";
     Debug "Exiting with status 2. Message: Unable to retrieve SNMP ring status";
     Print "Cisco Stack CRITICAL - Unable to retrieve SNMP ring status" ],
   SysExit 2).
Proof.
  intros H. unfold get_ring_status, session_get. unfold OID_RING in H.
  rewrite H. reflexivity.
Qed.

Ltac not_evaluator := unfold not_evaluator; intros Heq; inversion Heq.

Lemma plugin_exit_not_evaluator (exitcode : Z) (message : string) :
  Forall not_evaluator (trace (plugin_exit exitcode message)).
Proof.
  unfold plugin_exit, print, logging_debug. trace_steps; not_evaluator.
Qed.

Lemma get_stack_info_not_evaluator (net : network) (h c : string) :
  Forall not_evaluator (trace (get_stack_info net h c)).
Proof.
  unfold get_stack_info, session_bulkwalk, add_member, set_status, setitem_in, logging_debug.
  trace_steps; try apply plugin_exit_not_evaluator; try not_evaluator.
Qed.

Lemma get_ring_status_not_evaluator (net : network) (h c : string) :
  Forall not_evaluator (trace (get_ring_status net h c)).
Proof.
  unfold get_ring_status, session_get, logging_debug.
  trace_steps; try apply plugin_exit_not_evaluator; try not_evaluator.
Qed.

Lemma parser_parse_args_not_evaluator (argv : command_line) :
  Forall not_evaluator (trace (parser_parse_args argv)).
Proof.
  unfold parser_parse_args, subparser_parse_args, argparse_error.
  trace_steps; try not_evaluator.
Qed.

Lemma parse_args_not_evaluator (argv : command_line) :
  Forall not_evaluator (trace (parse_args argv)).
Proof.
  unfold parse_args, parse_option, usage, print, logging_debug.
  trace_steps; try not_evaluator.
Qed.

Lemma stdout_app (tr1 tr2 : list event) :
  stdout (tr1 ++ tr2) = (stdout tr1 ++ stdout tr2)%list.
Proof. apply List.filter_app. Qed.

Lemma stdout_DebugMember (walk : list SNMPVariable) :
  stdout (DebugMember <$> walk) = [].
Proof. induction walk as [|v walk IH]; [reflexivity|exact IH]. Qed.

Lemma get_stack_info_walks (net : network) (h c : string) :
  bulkwalk (net h c) OID_NUMBER <> [] ->
  bulkwalk (net h c) OID_STATE <> [] ->
  get_stack_info net h c =
  (([ Bulkwalk h c OID_NUMBER; Debug "Walking stack table -- " ]
    ++ (DebugMember <$> bulkwalk (net h c) OID_NUMBER)
    ++ [ Bulkwalk h c OID_STATE; Debug "Walking stack status -- " ]
    ++ trace (join_status net h c))%list,
   result (join_status net h c)).
Proof.
  intros H1 H2. unfold join_status, get_stack_info, session_bulkwalk.
  unfold OID_NUMBER in *. unfold OID_STATE in *.
  cbn.
  destruct (decide (bulkwalk (net h c) ".1.3.6.1.4.1.9.9.500.1.2.1.1.1" = []));
    [contradiction|].
  cbn. rewrite for_each_add_member. cbn.
  destruct (decide (bulkwalk (net h c) ".1.3.6.1.4.1.9.9.500.1.2.1.1.6" = []));
    [contradiction|].
  cbn.
  destruct (for_each (bulkwalk (net h c) ".1.3.6.1.4.1.9.9.500.1.2.1.1.6") set_status _)
    as [tr [t| |]]; cbn; rewrite <- ?app_assoc; reflexivity.
Qed.

Lemma get_stack_info_returns (net : network) (h c : string) (t : table) :
  result (get_stack_info net h c) = Return t ->
  bulkwalk (net h c) OID_NUMBER <> [] /\ bulkwalk (net h c) OID_STATE <> [].
Proof.
  intros Hr.
  destruct (decide (bulkwalk (net h c) OID_NUMBER = [])) as [E1|N1].
  { rewrite (get_stack_info_no_table _ _ _ E1) in Hr. discriminate. }
  destruct (decide (bulkwalk (net h c) OID_STATE = [])) as [E2|N2].
  { rewrite (get_stack_info_no_status _ _ _ N1 E2) in Hr. discriminate. }
  split; assumption.
Qed.

Lemma join_status_stdout (net : network) (h c : string) :
  Forall (fun e => is_stdout e = false) (trace (join_status net h c)).
Proof.
  unfold join_status, set_status, setitem_in, logging_debug.
  trace_steps; reflexivity.
Qed.

Lemma get_stack_info_returns_stdout (net : network) (h c : string) (t : table) :
  result (get_stack_info net h c) = Return t ->
  stdout (trace (get_stack_info net h c)) = [].
Proof.
  intros Hr. destruct (get_stack_info_returns _ _ _ _ Hr) as [N1 N2].
  rewrite (get_stack_info_walks _ _ _ N1 N2). cbn [trace fst app].
  change (stdout (?a :: ?b :: ?l)) with (stdout l).
  rewrite stdout_app, stdout_DebugMember. cbn [app].
  change (stdout (?a :: ?b :: ?l)) with (stdout l).
  apply filter_none, join_status_stdout.
Qed.

(** ** main, when collection stops the run *)

Section MainStops.
Context (net : network) (argv : command_line) (args : Namespace) (opts : options_dict).
Hypothesis Hparser : result (parser_parse_args argv) = Return args.
Hypothesis Hgetopt : result (parse_args argv) = Return opts.
Hypothesis Hmode : subparser_name args <> Some "part".

Lemma main_stops_in_get_stack_info (code : Z) :
  result (get_stack_info net (host args) (community args)) = SysExit code ->
  result (main net argv) = SysExit code /\
  trace (main net argv) =
  (trace (parser_parse_args argv) ++ trace (parse_args argv)
   ++ trace (get_stack_info net (host args) (community args)))%list.
Proof.
  intros Hs. unfold main.
  rewrite !result_bind, !trace_bind, Hparser.
  rewrite !result_bind, !trace_bind, Hgetopt.
  destruct (decide (subparser_name args = Some "part")); [contradiction|].
  rewrite !result_bind, !trace_bind, Hs.
  rewrite !app_nil_r. split; reflexivity.
Qed.

Lemma main_stops_in_get_ring_status (t : table) (code : Z) :
  result (get_stack_info net (host args) (community args)) = Return t ->
  result (get_ring_status net (host args) (community args)) = SysExit code ->
  result (main net argv) = SysExit code /\
  trace (main net argv) =
  (trace (parser_parse_args argv) ++ trace (parse_args argv)
   ++ trace (get_stack_info net (host args) (community args))
   ++ trace (get_ring_status net (host args) (community args)))%list.
Proof.
  intros Hs Hr. unfold main.
  rewrite !result_bind, !trace_bind, Hparser.
  rewrite !result_bind, !trace_bind, Hgetopt.
  destruct (decide (subparser_name args = Some "part")); [contradiction|].
  rewrite !result_bind, !trace_bind, Hs.
  rewrite !result_bind, !trace_bind, Hr.
  rewrite !app_nil_r. split; reflexivity.
Qed.

Lemma parsers_stdout :
  stdout (trace (parser_parse_args argv) ++ trace (parse_args argv)) = [].
Proof.
  rewrite (parser_parse_args_trace _ _ Hparser). cbn [app].
  apply filter_none. eapply Forall_impl; [apply (parse_args_trace _ _ Hgetopt)|].
  intros [] He; (reflexivity || discriminate).
Qed.

Lemma parsers_requests :
  requests (trace (parser_parse_args argv) ++ trace (parse_args argv)) = [].
Proof.
  rewrite (parser_parse_args_trace _ _ Hparser). cbn [app].
  apply filter_none. eapply Forall_impl; [apply (parse_args_trace _ _ Hgetopt)|].
  intros [] He; (reflexivity || discriminate).
Qed.
End MainStops.

Lemma not_evaluator_invoked (tr : list event) :
  Forall not_evaluator tr -> ~ evaluator_invoked tr.
Proof.
  intros HF Hin. rewrite Forall_forall in HF. exact (HF _ Hin eq_refl).
Qed.

(** C5: when a walk or the get of the collection returns an empty result, the
    program exits with status 2 (CRITICAL) after printing one line that names
    the failed retrieval, and the evaluator is not invoked on that run.  The
    number walk is the first request, the state walk follows a non-empty
    number walk, and the ring get follows a stack collection that returned. *)
Theorem collection_failure_exits_critical
    (net : network) (argv : command_line) (args : Namespace) (opts : options_dict) :
  result (parser_parse_args argv) = Return args ->
  result (parse_args argv) = Return opts ->
  subparser_name args <> Some "part" ->
  let agent := net (host args) (community args) in
  let run := main net argv in
  (bulkwalk agent OID_NUMBER = [] ->
   result run = SysExit CRITICAL /\
   stdout (trace run) = [Print "Cisco Stack CRITICAL - Unable to retrieve SNMP stack table"] /\
   ~ evaluator_invoked (trace run)) /\
  (bulkwalk agent OID_NUMBER <> [] -> bulkwalk agent OID_STATE = [] ->
   result run = SysExit CRITICAL /\
   stdout (trace run) = [Print "Cisco Stack CRITICAL - Unable to retrieve SNMP stack status"] /\
   ~ evaluator_invoked (trace run)) /\
  (forall t, result (get_stack_info net (host args) (community args)) = Return t ->
   get agent OID_RING = None ->
   result run = SysExit CRITICAL /\
   stdout (trace run) = [Print "Cisco Stack CRITICAL - Unable to retrieve SNMP ring status"] /\
   ~ evaluator_invoked (trace run)).
Proof.
  intros Hparser Hgetopt Hmode agent run. subst agent run.
  pose proof (parsers_stdout argv args opts Hparser Hgetopt) as Hout.
  pose proof (parser_parse_args_not_evaluator argv) as Hn1.
  pose proof (parse_args_not_evaluator argv) as Hn2.
  pose proof (get_stack_info_not_evaluator net (host args) (community args)) as Hn3.
  pose proof (get_ring_status_not_evaluator net (host args) (community args)) as Hn4.
  split; [|split].
  - intros Hwalk.
    pose proof (get_stack_info_no_table net _ _ Hwalk) as Hs.
    destruct (main_stops_in_get_stack_info net argv args opts Hparser Hgetopt Hmode 2)
      as [Hres Htr]; [now rewrite Hs|].
    split; [exact Hres|]. rewrite Htr. split.
    + rewrite app_assoc, stdout_app, Hout, Hs. reflexivity.
    + apply not_evaluator_invoked. rewrite !Forall_app. auto.
  - intros Hwalk1 Hwalk2.
    pose proof (get_stack_info_no_status net _ _ Hwalk1 Hwalk2) as Hs.
    destruct (main_stops_in_get_stack_info net argv args opts Hparser Hgetopt Hmode 2)
      as [Hres Htr]; [now rewrite Hs|].
    split; [exact Hres|]. rewrite Htr. split.
    + rewrite app_assoc, stdout_app, Hout, Hs. cbn [trace fst app].
      change (stdout (?a :: ?b :: ?l)) with (stdout l).
      rewrite stdout_app, stdout_DebugMember. reflexivity.
    + apply not_evaluator_invoked. rewrite !Forall_app. auto.
  - intros t Hs Hget.
    pose proof (get_ring_status_no_value net _ _ Hget) as Hr.
    destruct (main_stops_in_get_ring_status net argv args opts Hparser Hgetopt Hmode t 2 Hs)
      as [Hres Htr]; [now rewrite Hr|].
    split; [exact Hres|]. rewrite Htr. split.
    + rewrite app_assoc, stdout_app, Hout, stdout_app, Hr. cbn [app].
      rewrite (get_stack_info_returns_stdout _ _ _ _ Hs). reflexivity.
    + apply not_evaluator_invoked. rewrite !Forall_app. auto.
Qed.

Lemma collection_failure_exits_critical_witness :
  (let run := main (agent_of [] [] None) (check_host "192.0.2.1") in
   result run = SysExit CRITICAL /\
   stdout (trace run) = [Print "Cisco Stack CRITICAL - Unable to retrieve SNMP stack table"] /\
   ~ evaluator_invoked (trace run)) /\
  (let run := main (agent_of [number_1001] [] (Some "1")) (check_host "192.0.2.1") in
   result run = SysExit CRITICAL /\
   stdout (trace run) = [Print "Cisco Stack CRITICAL - Unable to retrieve SNMP stack status"] /\
   ~ evaluator_invoked (trace run)) /\
  (let run := main (agent_of [number_1001] [state_1001] None) (check_host "192.0.2.1") in
   result run = SysExit CRITICAL /\
   stdout (trace run) = [Print "Cisco Stack CRITICAL - Unable to retrieve SNMP ring status"] /\
   ~ evaluator_invoked (trace run)).
Proof.
  split; [|split].
  - refine (proj1 (collection_failure_exits_critical (agent_of [] [] None)
                     (check_host "192.0.2.1") _ _ eq_refl eq_refl _) _).
    + vm_compute. discriminate.
    + vm_compute. reflexivity.
  - refine (proj1 (proj2 (collection_failure_exits_critical
                     (agent_of [number_1001] [] (Some "1"))
                     (check_host "192.0.2.1") _ _ eq_refl eq_refl _)) _ _).
    + vm_compute. discriminate.
    + vm_compute. discriminate.
    + vm_compute. reflexivity.
  - refine (proj2 (proj2 (collection_failure_exits_critical
                     (agent_of [number_1001] [state_1001] None)
                     (check_host "192.0.2.1") _ _ eq_refl eq_refl _)) _ _ _).
    + vm_compute. discriminate.
    + vm_compute. reflexivity.
    + vm_compute. reflexivity.
Defined.

(** ** The asymmetric walk *)

(** C6 (the code departs from the claim): the number walk answers index 1001
    only, the state walk answers 1001 and 2001.  Collection does not fail
    with a CRITICAL exit: line 273 raises [KeyError('2001')], which nothing
    catches, so the run prints no plugin line and ends in that exception. *)
Theorem get_stack_info_asymmetric_walk_raises_KeyError :
  let net := agent_of [number_1001] [state_1001; state_2001] (Some "1") in
  result (get_stack_info net "192.0.2.1" "Public") = Raise (KeyError "2001") /\
  result (main net (check_host "192.0.2.1")) = Raise (KeyError "2001") /\
  stdout (trace (main net (check_host "192.0.2.1"))) = [].
Proof. vm_compute. repeat split; reflexivity. Qed.

(** ** The missing host *)

(** C7 (the code departs from the claim): with an empty command line the
    argparse parser of line 438, whose [-H/--host] is required, reports the
    missing argument and exits with status 2 before [parse_args] and [usage]
    can exit with UNKNOWN; nothing is printed on stdout and no SNMP request
    is sent. *)
Theorem main_missing_host_exits_2 (net : network) :
  main net no_arguments =
  ([ArgparseError "the following arguments are required: -H/--host"], SysExit 2) /\
  result (main net no_arguments) <> SysExit UNKNOWN /\
  stdout (trace (main net no_arguments)) = [] /\
  requests (trace (main net no_arguments)) = [].
Proof. repeat split. discriminate. Qed.

(** ** The dict operations *)

Lemma assoc_get_dict_set {V : Type} (k k' : string) (v : V) (d : list (string * V)) :
  assoc_get k' (dict_set k v d) = if decide (k' = k) then Some v else assoc_get k' d.
Proof.
  induction d as [|[k0 v0] d IH]; cbn.
  - reflexivity.
  - destruct (decide (k = k0)) as [->|Hk]; cbn.
    + destruct (decide (k' = k0)); reflexivity.
    + rewrite IH. destruct (decide (k' = k0)) as [->|]; [|reflexivity].
      destruct (decide (k0 = k)); [congruence|reflexivity].
Qed.

Lemma number_table_keys (walk : list SNMPVariable) (t : table) (k : string) :
  is_Some (assoc_get k (number_table walk t)) <->
  k ∈ (index_of <$> walk) \/ is_Some (assoc_get k t).
Proof.
  revert t. induction walk as [|v walk IH]; intros t; cbn.
  - split; [auto|]. intros [H|H]; [|exact H]. now apply elem_of_nil in H.
  - unfold number_table in IH. rewrite IH, assoc_get_dict_set, elem_of_cons.
    destruct (decide (k = index_of v)) as [->|Hne].
    + split; [auto|]. intros _. right. eexists; reflexivity.
    + tauto.
Qed.

Lemma setitem_in_present (index key v : string) (t : table) (m : member_dict) :
  assoc_get index t = Some m ->
  setitem_in index key v t = mret (dict_set index (<[key := v]> m) t).
Proof. intros H. unfold setitem_in. rewrite H. reflexivity. Qed.

Lemma set_status_absent (v : SNMPVariable) (t : table) :
  assoc_get (index_of v) t = None ->
  result (set_status v t) = Raise (KeyError (index_of v)).
Proof.
  intros H. unfold set_status, setitem_in. fold (index_of v). rewrite H. reflexivity.
Qed.

Lemma set_status_present (v : SNMPVariable) (t : table) :
  is_Some (assoc_get (index_of v) t) ->
  exists t', result (set_status v t) = Return t' /\
             forall k, is_Some (assoc_get k t') <-> is_Some (assoc_get k t).
Proof.
  intros [m Hm]. unfold set_status. fold (index_of v).
  rewrite (setitem_in_present _ _ _ _ _ Hm). cbn.
  erewrite setitem_in_present by (rewrite assoc_get_dict_set; case_decide; [reflexivity|congruence]).
  eexists. split; [reflexivity|].
  intros k. rewrite !assoc_get_dict_set.
  destruct (decide (k = index_of v)) as [->|]; [|reflexivity].
  rewrite Hm. split; intros _; eexists; reflexivity.
Qed.

(** The second loop raises [KeyError] as soon as an index is not a key of
    the table, and returns when every index is one. *)
Lemma for_each_set_status_absent (walk : list SNMPVariable) (t : table) :
  Exists (fun v => assoc_get (index_of v) t = None) walk ->
  exists k, result (for_each walk set_status t) = Raise (KeyError k) /\
            assoc_get k t = None /\ k ∈ (index_of <$> walk).
Proof.
  revert t. induction walk as [|v walk IH]; intros t HE.
  - inversion HE.
  - cbn [for_each]. rewrite result_bind.
    destruct (assoc_get (index_of v) t) as [m|] eqn:Hv.
    + destruct (set_status_present v t) as (t' & Ht' & Hkeys); [eauto|].
      rewrite Ht'.
      assert (Hnone : forall k, assoc_get k t' = None <-> assoc_get k t = None).
      { intros k. rewrite !eq_None_not_Some. now rewrite Hkeys. }
      destruct (IH t') as (k & Hk & Hn & Hin).
      * inversion HE as [? ? H0|? ? H0]; subst; [congruence|].
        eapply Exists_impl; [exact H0|]. intros x Hx. now apply Hnone.
      * exists k. repeat split; [exact Hk | now apply Hnone | now apply list_elem_of_further].
    + rewrite (set_status_absent _ _ Hv). exists (index_of v).
      repeat split; [exact Hv | apply list_elem_of_here].
Qed.

Lemma for_each_set_status_present (walk : list SNMPVariable) (t : table) :
  Forall (fun v => is_Some (assoc_get (index_of v) t)) walk ->
  exists t', result (for_each walk set_status t) = Return t'.
Proof.
  revert t. induction walk as [|v walk IH]; intros t HF.
  - eexists; reflexivity.
  - cbn [for_each]. rewrite result_bind.
    inversion HF as [|? ? Hv HF']; subst.
    destruct (set_status_present v t Hv) as (t' & Ht' & Hkeys). rewrite Ht'.
    apply IH. eapply Forall_impl; [exact HF'|]. intros x Hx. now apply Hkeys.
Qed.

(** What the code does on an asymmetric walk, in general: when both walks are
    non-empty and some state entry has an index the number walk did not
    report, collection ends in an uncaught [KeyError] for such an index. *)
Lemma get_stack_info_asymmetric (net : network) (h c : string) :
  bulkwalk (net h c) OID_NUMBER <> [] ->
  Exists (fun v => index_of v ∉ (index_of <$> bulkwalk (net h c) OID_NUMBER))
         (bulkwalk (net h c) OID_STATE) ->
  exists k, result (get_stack_info net h c) = Raise (KeyError k) /\
            (k ∉ (index_of <$> bulkwalk (net h c) OID_NUMBER)) /\
            (k ∈ (index_of <$> bulkwalk (net h c) OID_STATE)).
Proof.
  intros H1 HE.
  assert (H2 : bulkwalk (net h c) OID_STATE <> []).
  { intros E. rewrite E in HE. inversion HE. }
  rewrite (get_stack_info_walks _ _ _ H1 H2). cbn [result snd].
  unfold join_status. rewrite result_bind.
  destruct (for_each_set_status_absent (bulkwalk (net h c) OID_STATE)
              (number_table (bulkwalk (net h c) OID_NUMBER) [])) as (k & Hk & Hn & Hin).
  - eapply Exists_impl; [exact HE|]. intros v Hv.
    apply eq_None_not_Some. rewrite number_table_keys. intros [Hin|[? Hs]]; [auto|discriminate].
  - exists k. rewrite Hk. repeat split; [|exact Hin].
    intros Hin'. apply eq_None_not_Some in Hn. apply Hn, number_table_keys. auto.
Qed.

(** And it returns a table when every state index was numbered. *)
Lemma get_stack_info_symmetric (net : network) (h c : string) :
  bulkwalk (net h c) OID_NUMBER <> [] ->
  bulkwalk (net h c) OID_STATE <> [] ->
  Forall (fun v => index_of v ∈ (index_of <$> bulkwalk (net h c) OID_NUMBER))
         (bulkwalk (net h c) OID_STATE) ->
  exists t, result (get_stack_info net h c) = Return t.
Proof.
  intros H1 H2 HF.
  rewrite (get_stack_info_walks _ _ _ H1 H2). cbn [result snd].
  unfold join_status. rewrite result_bind.
  destruct (for_each_set_status_present (bulkwalk (net h c) OID_STATE)
              (number_table (bulkwalk (net h c) OID_NUMBER) [])) as (t & Ht).
  - eapply Forall_impl; [exact HF|]. intros v Hv. apply number_table_keys. auto.
  - rewrite Ht. eexists; reflexivity.
Qed.

(** What the code does without a host, in general: argparse ends the run
    with status 0 (help) or 2 (error); the run prints nothing on stdout and
    sends no request. *)
Lemma main_without_host (net : network) (argv : command_line) :
  last_host (options argv) = None ->
  (result (main net argv) = SysExit 0 \/ result (main net argv) = SysExit 2) /\
  stdout (trace (main net argv)) = [] /\
  requests (trace (main net argv)) = [].
Proof.
  intros Hh.
  assert (Hp : exists e code, parser_parse_args argv = ([e], SysExit code) /\
                              (code = 0 \/ code = 2) /\
                              is_stdout e = false /\ is_network e = false).
  { unfold parser_parse_args, subparser_parse_args, argparse_error. rewrite Hh.
    destruct (existsb is_help (options argv)); [do 2 eexists; split; [reflexivity|auto]|].
    destruct (subcommand argv) as [sub|];
      repeat (match goal with |- context [if ?b then _ else _] => destruct b end);
      do 2 eexists; (split; [reflexivity|auto]). }
  destruct Hp as (e & code & Hp & Hcode & Hs & Hn).
  unfold main. rewrite result_bind, trace_bind, Hp. cbn [result trace fst snd].
  rewrite app_nil_r. unfold stdout, requests. cbn. rewrite Hs, Hn.
  destruct Hcode as [->| ->]; auto.
Qed.

(** ** The second end-to-end scenario

    Member 2001 is provisioned (state 9) and the ring flag is 0: the run
    exits 2 and its line names both findings. *)
Example main_provisioned_non_redundant :
  let run := main (two_member_agent "4" "9" "0") (check_host "192.0.2.1") in
  result run = SysExit CRITICAL /\
  stdout (trace run) =
  [Print "Cisco Stack CRITICAL - Members: 1: ready, 2: provisioned, Stack Ring is non-redundant"].
Proof. vm_compute. split; reflexivity. Qed.

(** * Further properties of the code *)

(** ** evaluate_results *)

Lemma evaluate_results_Return (stack : table) (ring : string) (r : Z) (message : string) :
  result (evaluate_results stack ring) = Return (r, message) ->
  Forall (fun item => complete item.2) stack /\
  r = verdict stack ring /\ message = message_of stack ring.
Proof.
  intros Hr.
  destruct (decide (Forall (fun item : string * member_dict => complete item.2) stack))
    as [Hc|Hc].
  - rewrite (evaluate_results_complete _ _ Hc) in Hr. injection Hr as <- <-. auto.
  - destruct (evaluate_results_incomplete stack ring Hc) as [e He]. congruence.
Qed.

(** X1: the verdict read backwards.  When the evaluator returns a severity,
    it is CRITICAL exactly when some member's status code is not '4', WARNING
    exactly when every code is '4' and ring is not "1", and OK exactly when
    every code is '4' and ring is "1". *)
Theorem evaluate_results_verdict_iff
    (stack : table) (ring : string) (r : Z) (message : string) :
  result (evaluate_results stack ring) = Return (r, message) ->
  (r = CRITICAL <-> Exists (fun item => item.2 !! "status_num" <> Some "4") stack) /\
  (r = WARNING <-> Forall (fun item => item.2 !! "status_num" = Some "4") stack /\ ring <> "1") /\
  (r = OK <-> Forall (fun item => item.2 !! "status_num" = Some "4") stack /\ ring = "1").
Proof.
  intros Hr. apply evaluate_results_Return in Hr as (_ & -> & _).
  unfold verdict, ready.
  destruct (decide (Forall (fun item : string * member_dict =>
                              item.2 !! "status_num" = Some "4") stack)) as [F|F];
    destruct (decide (ring = "1")) as [R|R]; repeat split;
    try discriminate; try tauto; try (intros [? ?]; contradiction).
  - intros HE. exfalso. eapply Exists_not_Forall; [exact HE|exact F].
  - intros HE. exfalso. eapply Exists_not_Forall; [exact HE|exact F].
  - intros _. apply (not_Forall_Exists _ _ F).
  - intros _. apply (not_Forall_Exists _ _ F).
Qed.

Lemma evaluate_results_verdict_iff_witness :
  (CRITICAL = CRITICAL <->
   Exists (fun item : string * member_dict => item.2 !! "status_num" <> Some "4")
          one_provisioned) /\
  (CRITICAL = WARNING <->
   Forall (fun item : string * member_dict => item.2 !! "status_num" = Some "4")
          one_provisioned /\ "0" <> "1") /\
  (CRITICAL = OK <->
   Forall (fun item : string * member_dict => item.2 !! "status_num" = Some "4")
          one_provisioned /\ "0" = "1").
Proof.
  apply (evaluate_results_verdict_iff one_provisioned "0" CRITICAL
           "Members: 1: ready, 2: provisioned, Stack Ring is non-redundant").
  vm_compute. reflexivity.
Defined.






(** X4: the message of a readable table, whatever the states: "Members: ",
    then "<number>: <status>, " for each member in iteration order, then the
    ring sentence, which depends on the ring value alone. *)
Theorem evaluate_results_message (stack : table) (ring : string) :
  Forall (fun item => complete item.2) stack ->
  exists r,
    result (evaluate_results stack ring) =
    Return (r,
            "Members: "
            +:+ String.concat ""
                  ((fun item => default "" (item.2 !! "number") +:+ ": "
                                +:+ default "" (item.2 !! "status") +:+ ", ") <$> stack)
            +:+ (if decide (ring = "1") then "Stack Ring is redundant"
                 else "Stack Ring is non-redundant")).
Proof.
  intros Hc. exists (verdict stack ring).
  rewrite (evaluate_results_complete _ _ Hc). reflexivity.
Qed.

Lemma evaluate_results_message_witness :
  exists r,
    result (evaluate_results one_provisioned "0") =
    Return (r, "Members: 1: ready, 2: provisioned, Stack Ring is non-redundant").
Proof.
  apply (evaluate_results_message one_provisioned "0").
  repeat constructor; vm_compute; eauto.
Defined.

(** ** stack_state *)

(** X5: the lookup names a state "ready" exactly for the code '4', the code
    the evaluator compares with; and two inputs with the same name other than
    "UNKNOWN" are the same code, so a printed name identifies the code. *)
Theorem stack_state_ready_iff :
  (forall x, stack_state x = "ready" <-> x = "4") /\
  (forall x y, stack_state x = stack_state y -> stack_state x <> "UNKNOWN" -> x = y).
Proof.
  split.
  - intros x. split; [|intros ->; reflexivity].
    unfold stack_state, stack_state_table. cbn [assoc_get].
    repeat case_decide; subst; cbn; try discriminate; reflexivity.
  - intros x y. unfold stack_state, stack_state_table. cbn [assoc_get].
    repeat case_decide; subst; cbn; intros Hsame Hknown;
      first [reflexivity | discriminate | contradiction].
Qed.

Lemma stack_state_ready_iff_witness :
  (stack_state "9" = "ready" <-> "9" = "4") /\ "4" = "4".
Proof.
  split.
  - apply (proj1 stack_state_ready_iff "9").
  - apply (proj2 stack_state_ready_iff "4" "4"); [reflexivity | vm_compute; discriminate].
Defined.

(** ** The index of a walk entry: rsplit and pop *)

Lemma rsplit_nonempty (s : string) (sep : ascii) : rsplit s sep <> [].
Proof.
  destruct s as [|c s]; cbn; [discriminate|].
  case_decide; [discriminate|]. destruct (rsplit s sep); discriminate.
Qed.

Lemma rsplit_no_separator (s : string) (sep : ascii) :
  ~ occurs sep s -> rsplit s sep = [s].
Proof.
  unfold occurs. induction s as [|c s IH]; cbn; [reflexivity|].
  intros Hn. case_decide as Hc; [exfalso; apply Hn; left; congruence|].
  rewrite IH; [reflexivity|]. intros Hin. apply Hn. now right.
Qed.

Lemma rsplit_app (p a : string) (sep : ascii) :
  rsplit (p +:+ String sep a) sep = (rsplit p sep ++ rsplit a sep)%list.
Proof.
  induction p as [|c p IH].
  - change ("" +:+ String sep a) with (String sep a).
    cbn. case_decide; [reflexivity|contradiction].
  - change (String c p +:+ String sep a) with (String c (p +:+ String sep a)).
    cbn [rsplit]. case_decide.
    + rewrite IH. reflexivity.
    + rewrite IH. pose proof (rsplit_nonempty p sep).
      destruct (rsplit p sep) as [|w ws]; [contradiction|reflexivity].
Qed.

(** X6: splitting loses nothing and the pieces are clean.  For every string
    and separator, [rsplit] yields at least one piece (so [pop] always has an
    element to return), no piece contains the separator, and joining the
    pieces with the separator gives the string back. *)
Theorem rsplit_join (s : string) (sep : ascii) :
  rsplit s sep <> [] /\
  Forall (fun piece => ~ occurs sep piece) (rsplit s sep) /\
  String.concat (String sep "") (rsplit s sep) = s.
Proof.
  split; [apply rsplit_nonempty|]. unfold occurs.
  induction s as [|c s [IH1 IH2]]; cbn.
  - split; [repeat constructor; intros []|reflexivity].
  - pose proof (rsplit_nonempty s sep) as Hne.
    case_decide as Hc.
    + subst c. split; [constructor; [intros []|exact IH1]|].
      destruct (rsplit s sep) as [|w ws]; [contradiction|].
      rewrite <- IH2. reflexivity.
    + destruct (rsplit s sep) as [|w ws]; [contradiction|].
      apply Forall_cons in IH1 as [Hw Hws]. split.
      * constructor; [|exact Hws]. cbn. intros [E|Hin]; [congruence|contradiction].
      * rewrite <- IH2. destruct ws; reflexivity.
Qed.

(** X7: the index is the last arc of the oid.  For an oid that ends in
    ".<arc>", where the arc itself has no dot, popping the split oid gives the
    arc; for an oid without any dot it gives the whole oid. *)
Theorem index_is_last_arc :
  (forall before arc : string,
     ~ occurs "." arc -> pop (rsplit (before +:+ String "." arc) ".") = arc) /\
  (forall o : string, ~ occurs "." o -> pop (rsplit o ".") = o).
Proof.
  split.
  - intros before arc Hn. rewrite rsplit_app, (rsplit_no_separator _ _ Hn).
    unfold pop. apply last_last.
  - intros o Hn. rewrite (rsplit_no_separator _ _ Hn). reflexivity.
Qed.

Lemma index_is_last_arc_witness :
  pop (rsplit "iso.3.6.1.4.1.9.9.500.1.2.1.1.1.1001" ".") = "1001" /\
  pop (rsplit "1001" ".") = "1001".
Proof.
  assert (Hn : ~ occurs "." "1001").
  { unfold occurs. cbn. intros H. repeat (destruct H as [H|H]; [discriminate H|]). exact H. }
  split.
  - apply (proj1 index_is_last_arc "iso.3.6.1.4.1.9.9.500.1.2.1.1.1" "1001" Hn).
  - apply (proj2 index_is_last_arc "1001" Hn).
Defined.

(** ** exit_status and plugin_exit *)


(** ** The member table as a dict *)

Lemma assoc_get_is_Some {V : Type} (k : string) (d : list (string * V)) :
  is_Some (assoc_get k d) <-> k ∈ d.*1.
Proof.
  induction d as [|[k0 v0] d IH]; cbn.
  - split; [intros [? ?]; discriminate | intros H; now apply elem_of_nil in H].
  - rewrite elem_of_cons. case_decide; [split; eauto|]. rewrite IH. tauto.
Qed.

Lemma dict_set_keys_present {V : Type} (k : string) (v : V) (d : list (string * V)) :
  k ∈ d.*1 -> (dict_set k v d).*1 = d.*1.
Proof.
  induction d as [|[k0 v0] d IH]; cbn; intros Hin.
  - now apply elem_of_nil in Hin.
  - case_decide; [subst; reflexivity|]. cbn. f_equal. apply IH.
    apply elem_of_cons in Hin as [->|Hin]; [contradiction|exact Hin].
Qed.

Lemma dict_set_keys_absent {V : Type} (k : string) (v : V) (d : list (string * V)) :
  k ∉ d.*1 -> (dict_set k v d).*1 = (d.*1 ++ [k])%list.
Proof.
  induction d as [|[k0 v0] d IH]; cbn; intros Hin; [reflexivity|].
  rewrite not_elem_of_cons in Hin. destruct Hin as [Hne Hin].
  case_decide; [contradiction|]. cbn. f_equal. now apply IH.
Qed.

Lemma dict_set_keys_NoDup {V : Type} (k : string) (v : V) (d : list (string * V)) :
  NoDup d.*1 -> NoDup (dict_set k v d).*1.
Proof.
  intros Hd. destruct (decide (k ∈ d.*1)) as [Hin|Hin].
  - now rewrite dict_set_keys_present.
  - rewrite dict_set_keys_absent by assumption.
    apply NoDup_app. repeat split; [exact Hd| |apply NoDup_singleton].
    intros x Hx Hx'. apply list_elem_of_singleton in Hx'. subst. contradiction.
Qed.

Lemma assoc_get_elem_of {V : Type} (k : string) (v : V) (d : list (string * V)) :
  NoDup d.*1 -> ((k, v) ∈ d <-> assoc_get k d = Some v).
Proof.
  induction d as [|[k0 v0] d IH]; cbn; intros Hd.
  - split; [intros H; now apply elem_of_nil in H | discriminate].
  - apply NoDup_cons in Hd as [Hk0 Hd]. rewrite elem_of_cons, (IH Hd).
    case_decide as Hk.
    + subst k0. split.
      * intros [E|Hget]; [congruence|].
        exfalso. apply Hk0, assoc_get_is_Some. eauto.
      * intros [= ->]. now left.
    + split; [intros [E|Hget]; [congruence|exact Hget] | now right].
Qed.

Lemma number_table_keys_NoDup (walk : list SNMPVariable) (t : table) :
  NoDup t.*1 -> NoDup (number_table walk t).*1.
Proof.
  revert t. induction walk as [|v walk IH]; intros t Hd; [exact Hd|].
  cbn. apply IH. now apply dict_set_keys_NoDup.
Qed.

Lemma number_record_collected (v : SNMPVariable) :
  collected (index_of v) (number_record v) /\ number_record v !! "status_num" = None.
Proof.
  unfold collected, number_record. split; [split; [|split]|].
  - apply lookup_insert_eq.
  - rewrite lookup_insert_ne by discriminate. rewrite lookup_singleton_eq. eauto.
  - rewrite !lookup_insert_ne by discriminate.
    rewrite !lookup_singleton_ne by discriminate. reflexivity.
  - rewrite lookup_insert_ne by discriminate.
    rewrite lookup_singleton_ne by discriminate. reflexivity.
Qed.

Lemma number_table_collected (walk : list SNMPVariable) (t : table) :
  (forall k m, assoc_get k t = Some m -> collected k m /\ m !! "status_num" = None) ->
  forall k m, assoc_get k (number_table walk t) = Some m ->
              collected k m /\ m !! "status_num" = None.
Proof.
  revert t. induction walk as [|v walk IH]; intros t Ht; [exact Ht|].
  cbn. apply IH. intros k m. rewrite assoc_get_dict_set.
  case_decide as Hk; [|apply Ht].
  intros [= <-]. subst k. apply number_record_collected.
Qed.

Lemma result_bind_Return {A B} (m : py A) (k : A -> py B) (b : B) :
  result (m ≫= k) = Return b ->
  exists a, result m = Return a /\ result (k a) = Return b.
Proof.
  rewrite result_bind. destruct (result m) as [a| |]; [eauto|discriminate|discriminate].
Qed.

Lemma set_status_Return (v : SNMPVariable) (t t' : table) :
  result (set_status v t) = Return t' ->
  exists m, assoc_get (index_of v) t = Some m /\ t'.*1 = t.*1 /\
            forall k, assoc_get k t' =
                      if decide (k = index_of v)
                      then Some (<["status" := stack_state (value v)]>
                                   (<["status_num" := value v]> m))
                      else assoc_get k t.
Proof.
  destruct (assoc_get (index_of v) t) as [m|] eqn:Hm.
  2:{ rewrite (set_status_absent _ _ Hm). discriminate. }
  unfold set_status. fold (index_of v).
  rewrite (setitem_in_present _ _ _ _ _ Hm). cbn.
  erewrite setitem_in_present
    by (rewrite assoc_get_dict_set; case_decide; [reflexivity|congruence]).
  cbn. intros [= <-]. exists m. split; [reflexivity|]. split.
  - assert (Hin : index_of v ∈ t.*1) by (apply assoc_get_is_Some; eauto).
    rewrite dict_set_keys_present; [now apply dict_set_keys_present|].
    now rewrite dict_set_keys_present.
  - intros k. rewrite !assoc_get_dict_set. case_decide; reflexivity.
Qed.

Lemma for_each_set_status_Return (walk : list SNMPVariable) (t t' : table)
    (done : list string) :
  result (for_each walk set_status t) = Return t' ->
  (forall k m, assoc_get k t = Some m ->
               collected k m /\ (is_Some (m !! "status_num") <-> k ∈ done)) ->
  t'.*1 = t.*1 /\
  forall k m, assoc_get k t' = Some m ->
              collected k m /\
              (is_Some (m !! "status_num") <-> k ∈ (done ++ (index_of <$> walk))%list).
Proof.
  revert t done. induction walk as [|v walk IH]; intros t done Hr Hinv.
  - cbn in Hr. injection Hr as <-. split; [reflexivity|].
    intros k m Hk. cbn. rewrite app_nil_r. now apply Hinv.
  - cbn [for_each] in Hr. apply result_bind_Return in Hr as (t1 & H1 & Hr).
    apply set_status_Return in H1 as (m0 & Hm0 & Hkeys & Hget).
    destruct (IH t1 (done ++ [index_of v])%list Hr) as [Hkeys' Hinv'].
    + intros k m. rewrite Hget. case_decide as Hk.
      * intros [= <-]. subst k. destruct (Hinv _ _ Hm0) as [(Hi & Hn & _) _].
        split; [repeat split|].
        -- rewrite !lookup_insert_ne by discriminate. exact Hi.
        -- rewrite !lookup_insert_ne by discriminate. exact Hn.
        -- rewrite lookup_insert_eq, lookup_insert_ne by discriminate.
           rewrite lookup_insert_eq. reflexivity.
        -- rewrite lookup_insert_ne by discriminate. rewrite lookup_insert_eq.
           split; [intros _; apply elem_of_app; right; apply list_elem_of_here | eauto].
      * intros Hm. destruct (Hinv _ _ Hm) as [Hc Hs]. split; [exact Hc|].
        rewrite Hs, elem_of_app, list_elem_of_singleton. tauto.
    + split; [congruence|]. intros k m Hm. destruct (Hinv' _ _ Hm) as [Hc Hs].
      split; [exact Hc|]. rewrite Hs, <- app_assoc. reflexivity.
Qed.

Lemma join_status_Return (net : network) (h c : string) (t : table) :
  result (join_status net h c) = Return t ->
  result (for_each (bulkwalk (net h c) OID_STATE) set_status
            (number_table (bulkwalk (net h c) OID_NUMBER) [])) = Return t.
Proof.
  unfold join_status. intros Hr. apply result_bind_Return in Hr as (t1 & H1 & Hr).
  cbn in Hr. congruence.
Qed.

Lemma get_stack_info_lookup (net : network) (h c : string) (t : table) :
  result (get_stack_info net h c) = Return t ->
  t.*1 = (number_table (bulkwalk (net h c) OID_NUMBER) []).*1 /\
  forall k m, assoc_get k t = Some m ->
              collected k m /\
              (is_Some (m !! "status_num") <->
               k ∈ (index_of <$> bulkwalk (net h c) OID_STATE)).
Proof.
  intros Hr. destruct (get_stack_info_returns _ _ _ _ Hr) as [N1 N2].
  rewrite (get_stack_info_walks _ _ _ N1 N2) in Hr. cbn [result snd] in Hr.
  apply join_status_Return in Hr.
  apply (for_each_set_status_Return _ _ _ [] Hr).
  intros k m Hm.
  destruct (number_table_collected (bulkwalk (net h c) OID_NUMBER) [] ) with (k := k) (m := m)
    as [Hc Hs]; [discriminate|exact Hm|].
  split; [exact Hc|]. rewrite Hs. split; [intros [? ?]; discriminate|].
  intros Hin. now apply elem_of_nil in Hin.
Qed.

Lemma get_stack_info_keys (net : network) (h c : string) (t : table) :
  result (get_stack_info net h c) = Return t ->
  NoDup t.*1 /\
  (forall k, k ∈ t.*1 <-> k ∈ (index_of <$> bulkwalk (net h c) OID_NUMBER)).
Proof.
  intros Hr. destruct (get_stack_info_lookup _ _ _ _ Hr) as [Hkeys _].
  rewrite Hkeys. split; [apply number_table_keys_NoDup; constructor|].
  intros k. rewrite <- assoc_get_is_Some, number_table_keys.
  split; [intros [Hin|[? Hs]]; [exact Hin|discriminate] | auto].
Qed.

Lemma get_stack_info_records (net : network) (h c : string) (t : table) :
  result (get_stack_info net h c) = Return t ->
  Forall (fun item =>
            collected item.1 item.2 /\
            (is_Some (item.2 !! "status_num") <->
             item.1 ∈ (index_of <$> bulkwalk (net h c) OID_STATE))) t.
Proof.
  intros Hr. destruct (get_stack_info_keys _ _ _ _ Hr) as [Hd _].
  destruct (get_stack_info_lookup _ _ _ _ Hr) as [_ Hinv].
  apply Forall_forall. intros [k m] Hin. cbn.
  apply (assoc_get_elem_of _ _ _ Hd) in Hin. now apply Hinv.
Qed.

(** X9: the table the collector returns is well formed.  Its keys are the
    indices of the number walk, each once; every record carries its key as
    'index' and a 'number'; a record has a status code exactly when the state
    walk reported its index, and then its status name is the table's name
    of that code. *)
Theorem get_stack_info_table (net : network) (h c : string) (t : table) :
  result (get_stack_info net h c) = Return t ->
  NoDup t.*1 /\
  (forall k, k ∈ t.*1 <-> k ∈ (index_of <$> bulkwalk (net h c) OID_NUMBER)) /\
  Forall (fun item =>
            item.2 !! "index" = Some item.1 /\
            is_Some (item.2 !! "number") /\
            item.2 !! "status" = stack_state <$> item.2 !! "status_num" /\
            (is_Some (item.2 !! "status_num") <->
             item.1 ∈ (index_of <$> bulkwalk (net h c) OID_STATE))) t.
Proof.
  intros Hr. destruct (get_stack_info_keys _ _ _ _ Hr) as [Hd Hkeys].
  split; [exact Hd|]. split; [exact Hkeys|].
  eapply Forall_impl; [apply (get_stack_info_records _ _ _ _ Hr)|].
  intros item [(Hi & Hn & Hs) Hiff]. auto.
Qed.

Lemma get_stack_info_table_witness :
  NoDup two_ready.*1 /\
  (forall k, k ∈ two_ready.*1 <->
             k ∈ (index_of <$> bulkwalk (two_member_agent "4" "4" "1" "192.0.2.1" "Public")
                                        OID_NUMBER)) /\
  Forall (fun item : string * member_dict =>
            item.2 !! "index" = Some item.1 /\
            is_Some (item.2 !! "number") /\
            item.2 !! "status" = stack_state <$> item.2 !! "status_num" /\
            (is_Some (item.2 !! "status_num") <->
             item.1 ∈ (index_of <$> bulkwalk (two_member_agent "4" "4" "1" "192.0.2.1" "Public")
                                            OID_STATE))) two_ready.
Proof.
  apply (get_stack_info_table (two_member_agent "4" "4" "1") "192.0.2.1" "Public" two_ready).
  vm_compute. reflexivity.
Defined.

(** X10: the three ways collection ends, and when.  It returns a table
    exactly when both walks are non-empty and every index of the state walk
    is an index of the number walk; it exits CRITICAL exactly when one of the
    walks it reaches is empty; and it raises [KeyError] exactly when the
    number walk is non-empty and the state walk has an index the number walk
    lacks, the exception naming such an index. *)
Theorem get_stack_info_outcome (net : network) (h c : string) :
  let numbers := bulkwalk (net h c) OID_NUMBER in
  let states := bulkwalk (net h c) OID_STATE in
  ((exists t, result (get_stack_info net h c) = Return t) <->
   numbers <> [] /\ states <> [] /\
   Forall (fun v => index_of v ∈ (index_of <$> numbers)) states) /\
  (result (get_stack_info net h c) = SysExit CRITICAL <->
   numbers = [] \/ states = []) /\
  ((exists k, result (get_stack_info net h c) = Raise (KeyError k)) <->
   numbers <> [] /\ Exists (fun v => index_of v ∉ (index_of <$> numbers)) states) /\
  (forall k, result (get_stack_info net h c) = Raise (KeyError k) ->
             (k ∉ (index_of <$> numbers)) /\ (k ∈ (index_of <$> states))).
Proof.
  intros numbers states. subst numbers states.
  destruct (decide (bulkwalk (net h c) OID_NUMBER = [])) as [E1|N1].
  { rewrite (get_stack_info_no_table _ _ _ E1). cbn [result snd].
    split; [|split; [|split]].
    - split; [intros [t Ht]; discriminate | intros (Hn & _); contradiction].
    - split; [intros _; now left | reflexivity].
    - split; [intros [k Hk]; discriminate | intros (Hn & _); contradiction].
    - intros k Hk. discriminate. }
  destruct (decide (bulkwalk (net h c) OID_STATE = [])) as [E2|N2].
  { rewrite (get_stack_info_no_status _ _ _ N1 E2). cbn [result snd].
    split; [|split; [|split]].
    - split; [intros [t Ht]; discriminate | intros (_ & Hn & _); contradiction].
    - split; [intros _; now right | reflexivity].
    - split; [intros [k Hk]; discriminate|].
      intros (_ & HE). rewrite E2 in HE. inversion HE.
    - intros k Hk. discriminate. }
  destruct (Forall_Exists_dec
              (fun v => index_of v ∈ (index_of <$> bulkwalk (net h c) OID_NUMBER))
              (fun v => index_of v ∉ (index_of <$> bulkwalk (net h c) OID_NUMBER))
              (fun v => decide (index_of v ∈ (index_of <$> bulkwalk (net h c) OID_NUMBER)))
              (bulkwalk (net h c) OID_STATE)) as [HF|HE].
  - destruct (get_stack_info_symmetric _ _ _ N1 N2 HF) as [t Ht]. rewrite Ht.
    split; [|split; [|split]].
    + split; [auto | eauto].
    + split; [discriminate | intros [?|?]; contradiction].
    + split; [intros [k Hk]; discriminate|].
      intros (_ & HE). exfalso. apply Exists_exists in HE as (v & Hv & Hn).
      rewrite Forall_forall in HF. exact (Hn (HF _ Hv)).
    + intros k Hk. discriminate.
  - destruct (get_stack_info_asymmetric _ _ _ N1 HE) as (k & Hk & Hn & Hin). rewrite Hk.
    split; [|split; [|split]].
    + split; [intros [t Ht]; discriminate|].
      intros (_ & _ & HF). exfalso. apply Exists_exists in HE as (v & Hv & Hn').
      rewrite Forall_forall in HF. exact (Hn' (HF _ Hv)).
    + split; [discriminate | intros [?|?]; contradiction].
    + split; [auto | eauto].
    + intros k' [= <-]. auto.
Qed.

(** ** main on the path of the check *)

Lemma plugin_exit_bind {B : Type} (code : Z) (message : string) (k : unit -> py B) :
  plugin_exit code message ≫= k = (trace (plugin_exit code message), SysExit code).
Proof. reflexivity. Qed.

Lemma mret_bind {A B} (a : A) (k : A -> py B) : (mret a ≫= k) = k a.
Proof. unfold mret, py_ret, mbind, py_bind. destruct (k a). reflexivity. Qed.

Lemma main_is_check_stack
    (net : network) (argv : command_line) (args : Namespace) (opts : options_dict) :
  result (parser_parse_args argv) = Return args ->
  result (parse_args argv) = Return opts ->
  subparser_name args <> Some "part" ->
  result (main net argv) = result (check_stack net args) /\
  trace (main net argv) =
  (trace (parser_parse_args argv) ++ trace (parse_args argv)
   ++ trace (check_stack net args))%list.
Proof.
  intros Hp Hg Hm. unfold main, check_stack.
  rewrite !result_bind, !trace_bind, Hp.
  rewrite !result_bind, !trace_bind, Hg.
  destruct (decide (subparser_name args = Some "part")); [contradiction|].
  rewrite !result_bind, !trace_bind.
  destruct (get_stack_info net (host args) (community args)) as [tr3 [t| |]];
    cbn [result trace fst snd]; rewrite ?app_nil_r; [|split; reflexivity|split; reflexivity].
  rewrite !result_bind, !trace_bind.
  destruct (get_ring_status net (host args) (community args)) as [tr4 [ring| |]];
    cbn [result trace fst snd]; rewrite ?app_nil_r; [|split; reflexivity|split; reflexivity].
  rewrite !result_mret. cbn [local]. rewrite !mret_bind, <- ?app_assoc.
  split; reflexivity.
Qed.

Lemma requests_app (tr1 tr2 : list event) :
  requests (tr1 ++ tr2) = (requests tr1 ++ requests tr2)%list.
Proof. apply List.filter_app. Qed.

Lemma requests_DebugMember (walk : list SNMPVariable) :
  requests (DebugMember <$> walk) = [].
Proof. induction walk as [|v walk IH]; [reflexivity|exact IH]. Qed.

Lemma join_status_requests (net : network) (h c : string) :
  requests (trace (join_status net h c)) = [].
Proof.
  apply filter_none.
  unfold join_status, set_status, setitem_in, logging_debug. trace_steps; reflexivity.
Qed.

Lemma get_stack_info_requests (net : network) (h c : string) :
  requests (trace (get_stack_info net h c)) =
  if decide (bulkwalk (net h c) OID_NUMBER = []) then [Bulkwalk h c OID_NUMBER]
  else [Bulkwalk h c OID_NUMBER; Bulkwalk h c OID_STATE].
Proof.
  case_decide as E1.
  - rewrite (get_stack_info_no_table _ _ _ E1). reflexivity.
  - destruct (decide (bulkwalk (net h c) OID_STATE = [])) as [E2|N2].
    + rewrite (get_stack_info_no_status _ _ _ E1 E2). cbn [trace fst app].
      change (requests (?a :: ?b :: ?l)) with (a :: requests l).
      rewrite requests_app, requests_DebugMember. reflexivity.
    + rewrite (get_stack_info_walks _ _ _ E1 N2). cbn [trace fst app].
      change (requests (?a :: ?b :: ?l)) with (a :: requests l).
      rewrite requests_app, requests_DebugMember. cbn [app].
      change (requests (?a :: ?b :: ?l)) with (a :: requests l).
      now rewrite join_status_requests.
Qed.

Lemma get_ring_status_value (net : network) (h c : string) (var : SNMPVariable) :
  get (net h c) OID_RING = Some var ->
  get_ring_status net h c =
  ([ Get h c OID_RING;
     Debug "Getting stack ring redundancy status -- ";
     Debug ("Ring status: " +:+ value var) ],
   Return (value var)).
Proof.
  intros H. unfold get_ring_status, session_get. unfold OID_RING in H.
  rewrite H. reflexivity.
Qed.

Lemma get_ring_status_requests (net : network) (h c : string) :
  requests (trace (get_ring_status net h c)) = [Get h c OID_RING].
Proof.
  destruct (get (net h c) OID_RING) as [var|] eqn:Hg.
  - now rewrite (get_ring_status_value _ _ _ _ Hg).
  - now rewrite (get_ring_status_no_value _ _ _ Hg).
Qed.

Lemma report_requests (stack : table) (ring : string) :
  requests (trace (report stack ring)) = [].
Proof.
  apply filter_none. unfold report. apply bind_trace_Forall.
  - eapply Forall_impl; [apply evaluate_results_trace_debug|].
    intros [] He; (reflexivity || discriminate).
  - intros [r m]. repeat constructor.
Qed.

Lemma report_incomplete (stack : table) (ring : string) :
  ~ Forall (fun item => complete item.2) stack ->
  stdout (trace (report stack ring)) = [] /\
  exists e, result (report stack ring) = Raise e /\
            result (evaluate_results stack ring) = Raise e.
Proof.
  intros Hn. destruct (evaluate_results_incomplete stack ring Hn) as [e He].
  unfold report. rewrite result_bind, trace_bind, He, app_nil_r. split; [|eauto].
  apply filter_none. eapply Forall_impl; [apply evaluate_results_trace_debug|].
  intros [] Hd; (reflexivity || discriminate).
Qed.

Lemma check_stack_tail (args : Namespace) (stack : table) (ring : string) :
  ('(result, message) ← evaluate_results stack ring;
   plugin_exit result message ;; emit (PrintArgs args)) = report stack ring.
Proof.
  unfold report. destruct (evaluate_results stack ring) as [tr [[r m]| |]]; reflexivity.
Qed.

Lemma check_stack_collected (net : network) (args : Namespace) (t : table) (var : SNMPVariable) :
  result (get_stack_info net (host args) (community args)) = Return t ->
  get (net (host args) (community args)) OID_RING = Some var ->
  result (check_stack net args) = result (report t (value var)) /\
  trace (check_stack net args) =
  (trace (get_stack_info net (host args) (community args))
   ++ trace (get_ring_status net (host args) (community args))
   ++ trace (report t (value var)))%list.
Proof.
  intros Hs Hg. unfold check_stack.
  rewrite !result_bind, !trace_bind, Hs.
  rewrite !result_bind, !trace_bind, (get_ring_status_value _ _ _ _ Hg).
  cbn [result trace fst snd]. rewrite check_stack_tail. split; reflexivity.
Qed.

Lemma parser_parse_args_community (argv : command_line) (args : Namespace) :
  result (parser_parse_args argv) = Return args ->
  community args = last_community (options argv).
Proof.
  unfold parser_parse_args.
  destruct (existsb is_help (options argv)); [discriminate|].
  rewrite result_bind.
  destruct (result (match subcommand argv with
                    | Some sub => subparser_parse_args sub
                    | None => mret ()
                    end)); try discriminate.
  destruct (last_host (options argv)); [|discriminate].
  intros [= <-]. reflexivity.
Qed.

Lemma get_ring_status_stdout (net : network) (h c : string) (var : SNMPVariable) :
  get (net h c) OID_RING = Some var -> stdout (trace (get_ring_status net h c)) = [].
Proof. intros Hg. now rewrite (get_ring_status_value _ _ _ _ Hg). Qed.

Lemma check_stack_requests (net : network) (args : Namespace) :
  requests (trace (check_stack net args)) =
  match result (get_stack_info net (host args) (community args)) with
  | Return _ =>
      [ Bulkwalk (host args) (community args) OID_NUMBER;
        Bulkwalk (host args) (community args) OID_STATE;
        Get (host args) (community args) OID_RING ]
  | _ =>
      if decide (bulkwalk (net (host args) (community args)) OID_NUMBER = [])
      then [ Bulkwalk (host args) (community args) OID_NUMBER ]
      else [ Bulkwalk (host args) (community args) OID_NUMBER;
             Bulkwalk (host args) (community args) OID_STATE ]
  end.
Proof.
  unfold check_stack. rewrite trace_bind, requests_app, get_stack_info_requests.
  destruct (result (get_stack_info net (host args) (community args))) as [t| |] eqn:Hs;
    [|now rewrite app_nil_r|now rewrite app_nil_r].
  destruct (get_stack_info_returns _ _ _ _ Hs) as [N1 _].
  case_decide; [contradiction|].
  rewrite trace_bind, requests_app, get_ring_status_requests.
  destruct (result (get_ring_status net (host args) (community args))) as [ring| |];
    [|reflexivity|reflexivity].
  rewrite check_stack_tail, report_requests. reflexivity.
Qed.

(** X11: which requests a check sends, and where.  On a command line both
    parsers accept, without the part sub-command, the requests go to the
    host of the last -H option with the community of the last -c option
    ("Public" without one).  The number walk is always sent; the state walk
    follows unless the number walk came back empty; the ring get is sent
    exactly when the stack collection returned a table.  Nothing else is
    ever requested. *)
Theorem main_requests
    (net : network) (argv : command_line) (args : Namespace) (opts : options_dict) :
  result (parser_parse_args argv) = Return args ->
  result (parse_args argv) = Return opts ->
  subparser_name args <> Some "part" ->
  last_host (options argv) = Some (host args) /\
  community args = last_community (options argv) /\
  requests (trace (main net argv)) =
  match result (get_stack_info net (host args) (community args)) with
  | Return _ =>
      [ Bulkwalk (host args) (community args) OID_NUMBER;
        Bulkwalk (host args) (community args) OID_STATE;
        Get (host args) (community args) OID_RING ]
  | _ =>
      if decide (bulkwalk (net (host args) (community args)) OID_NUMBER = [])
      then [ Bulkwalk (host args) (community args) OID_NUMBER ]
      else [ Bulkwalk (host args) (community args) OID_NUMBER;
             Bulkwalk (host args) (community args) OID_STATE ]
  end.
Proof.
  intros Hp Hg Hm.
  split; [now apply parser_parse_args_host|].
  split; [now apply parser_parse_args_community|].
  destruct (main_is_check_stack net argv args opts Hp Hg Hm) as [_ Htr].
  rewrite Htr, app_assoc, requests_app, (parsers_requests argv args opts Hp Hg).
  apply check_stack_requests.
Qed.

Lemma main_requests_witness :
  let argv := {| options := [OptHost "192.0.2.9"; OptCommunity "secret"; OptHost "192.0.2.1"];
                 subcommand := None |} in
  requests (trace (main (agent_of [number_1001] [state_1001] (Some "1")) argv)) =
  [ Bulkwalk "192.0.2.1" "secret" OID_NUMBER;
    Bulkwalk "192.0.2.1" "secret" OID_STATE;
    Get "192.0.2.1" "secret" OID_RING ].
Proof.
  intros argv.
  refine (proj2 (proj2 (main_requests (agent_of [number_1001] [state_1001] (Some "1"))
                          argv _ _ eq_refl eq_refl _))).
  vm_compute. discriminate.
Defined.

Lemma collected_table_complete (net : network) (h c : string) (t : table) :
  result (get_stack_info net h c) = Return t ->
  Forall (fun v => index_of v ∈ (index_of <$> bulkwalk (net h c) OID_STATE))
         (bulkwalk (net h c) OID_NUMBER) ->
  Forall (fun item => complete item.2) t.
Proof.
  intros Hs Hcover. destruct (get_stack_info_keys _ _ _ _ Hs) as [_ Hkeys].
  pose proof (get_stack_info_records _ _ _ _ Hs) as Hall.
  apply Forall_forall. intros [k m] Hin.
  rewrite Forall_forall in Hall. destruct (Hall _ Hin) as [(_ & Hn & Hst) Hiff]. cbn in *.
  assert (Hk : k ∈ (index_of <$> bulkwalk (net h c) OID_STATE)).
  { assert (Hk : k ∈ t.*1) by (apply list_elem_of_fmap; exists (k, m); auto).
    apply Hkeys, list_elem_of_fmap in Hk as (v & -> & Hv).
    rewrite Forall_forall in Hcover. now apply Hcover. }
  apply Hiff in Hk as [code Hcode].
  repeat split; [exact Hn| |eauto]. rewrite Hst, Hcode. eexists; reflexivity.
Qed.

(** X12: the run of a consistent poll, end to end.  On a command line both
    parsers accept, without the part sub-command, when the two walks are
    non-empty and report the same indices and the ring get answers, the
    collector returns a table, the evaluator returns a severity and a message
    for it, and the program prints the single line "Cisco Stack <label> -
    <message>" and exits with that severity, having sent the three requests. *)
Theorem main_consistent_poll
    (net : network) (argv : command_line) (args : Namespace) (opts : options_dict)
    (var : SNMPVariable) :
  result (parser_parse_args argv) = Return args ->
  result (parse_args argv) = Return opts ->
  subparser_name args <> Some "part" ->
  let agent := net (host args) (community args) in
  bulkwalk agent OID_NUMBER <> [] ->
  Forall (fun v => index_of v ∈ (index_of <$> bulkwalk agent OID_STATE))
         (bulkwalk agent OID_NUMBER) ->
  Forall (fun v => index_of v ∈ (index_of <$> bulkwalk agent OID_NUMBER))
         (bulkwalk agent OID_STATE) ->
  get agent OID_RING = Some var ->
  exists t r message,
    result (get_stack_info net (host args) (community args)) = Return t /\
    result (evaluate_results t (value var)) = Return (r, message) /\
    (r = OK \/ r = WARNING \/ r = CRITICAL) /\
    result (main net argv) = SysExit r /\
    stdout (trace (main net argv)) =
    [Print ("Cisco Stack " +:+ exit_status r +:+ " - " +:+ message)] /\
    length (requests (trace (main net argv))) = 3%nat.
Proof.
  intros Hp Hg Hm agent N1 Hcover1 Hcover2 Hget. subst agent.
  assert (N2 : bulkwalk (net (host args) (community args)) OID_STATE <> []).
  { intros E. rewrite E in Hcover1.
    destruct (bulkwalk (net (host args) (community args)) OID_NUMBER) as [|v l];
      [contradiction|].
    apply Forall_cons in Hcover1 as [Hv _]. now apply elem_of_nil in Hv. }
  destruct (get_stack_info_symmetric _ _ _ N1 N2 Hcover2) as [t Ht].
  pose proof (collected_table_complete _ _ _ _ Ht Hcover1) as Hc.
  exists t, (verdict t (value var)), (message_of t (value var)).
  destruct (main_is_check_stack net argv args opts Hp Hg Hm) as [Hres Htr].
  destruct (check_stack_collected net args t var Ht Hget) as [Hres' Htr'].
  destruct (report_complete t (value var) Hc) as [Hrep Hout].
  split; [exact Ht|]. split; [now apply evaluate_results_complete|].
  split; [apply verdict_range|]. split; [congruence|]. split.
  - rewrite Htr, Htr', app_assoc, stdout_app, (parsers_stdout argv args opts Hp Hg).
    rewrite !stdout_app, (get_stack_info_returns_stdout _ _ _ _ Ht).
    rewrite (get_ring_status_stdout _ _ _ _ Hget), Hout. reflexivity.
  - rewrite Htr, app_assoc, requests_app, (parsers_requests argv args opts Hp Hg).
    rewrite check_stack_requests, Ht. reflexivity.
Qed.

Lemma main_consistent_poll_witness :
  exists t r message,
    result (get_stack_info (two_member_agent "4" "9" "0") "192.0.2.1" "Public") = Return t /\
    result (evaluate_results t "0") = Return (r, message) /\
    (r = OK \/ r = WARNING \/ r = CRITICAL) /\
    result (main (two_member_agent "4" "9" "0") (check_host "192.0.2.1")) = SysExit r /\
    stdout (trace (main (two_member_agent "4" "9" "0") (check_host "192.0.2.1"))) =
    [Print ("Cisco Stack " +:+ exit_status r +:+ " - " +:+ message)] /\
    length (requests (trace (main (two_member_agent "4" "9" "0") (check_host "192.0.2.1"))))
    = 3%nat.
Proof.
  refine (main_consistent_poll (two_member_agent "4" "9" "0") (check_host "192.0.2.1")
            _ _ {| oid := "iso.3.6.1.4.1.9.9.500.1.1.3.0"; value := "0" |}
            eq_refl eq_refl _ _ _ _ _).
  - vm_compute. discriminate.
  - vm_compute. discriminate.
  - repeat constructor; vm_compute;
      repeat first [apply list_elem_of_here | apply list_elem_of_further].
  - repeat constructor; vm_compute;
      repeat first [apply list_elem_of_here | apply list_elem_of_further].
  - vm_compute. reflexivity.
Defined.

(** ** A numbered member the state walk leaves out *)

Lemma for_each_check_collected (stack : table) st :
  Forall (fun item => is_Some (item.2 !! "number") /\
                      item.2 !! "status" = stack_state <$> item.2 !! "status_num") stack ->
  ~ Forall (fun item => complete item.2) stack ->
  result (for_each stack check_member st) = Raise (KeyError "status").
Proof.
  revert st. induction stack as [|[i m] stack IH]; intros st Hall Hn.
  - exfalso. apply Hn. constructor.
  - apply Forall_cons in Hall as [[[n Hnum] Hst] Hall]. cbn in Hnum, Hst.
    cbn [for_each]. rewrite result_bind.
    destruct (decide (complete m)) as [Hm|Hm].
    + destruct st as [message r]. rewrite (check_member_complete _ _ _ _ Hm).
      apply IH; [exact Hall|]. intros F. apply Hn. constructor; assumption.
    + destruct st as [message r]. unfold check_member.
      rewrite !(result_getitem _ _ _ Hnum).
      destruct (m !! "status") as [s|] eqn:Hs.
      * exfalso. apply Hm. unfold complete. rewrite Hnum, Hs.
        destruct (m !! "status_num"); [eauto|discriminate].
      * rewrite (result_getitem_None _ _ Hs). reflexivity.
Qed.

(** X13: the opposite asymmetry.  When the number walk reports an index the
    state walk does not, while every state index is numbered and the ring
    get answers, collection succeeds with a record that has no status, and
    the run then dies in the evaluator with [KeyError('status')]: nothing is
    printed and no exit code of the plugin convention is produced. *)
Theorem main_member_without_state
    (net : network) (argv : command_line) (args : Namespace) (opts : options_dict)
    (var : SNMPVariable) :
  result (parser_parse_args argv) = Return args ->
  result (parse_args argv) = Return opts ->
  subparser_name args <> Some "part" ->
  let agent := net (host args) (community args) in
  bulkwalk agent OID_STATE <> [] ->
  Forall (fun v => index_of v ∈ (index_of <$> bulkwalk agent OID_NUMBER))
         (bulkwalk agent OID_STATE) ->
  Exists (fun v => index_of v ∉ (index_of <$> bulkwalk agent OID_STATE))
         (bulkwalk agent OID_NUMBER) ->
  get agent OID_RING = Some var ->
  (exists t, result (get_stack_info net (host args) (community args)) = Return t) /\
  result (main net argv) = Raise (KeyError "status") /\
  stdout (trace (main net argv)) = [].
Proof.
  intros Hp Hg Hm agent N2 Hcover Hmiss Hget. subst agent.
  assert (N1 : bulkwalk (net (host args) (community args)) OID_NUMBER <> []).
  { intros E. rewrite E in Hmiss. inversion Hmiss. }
  destruct (get_stack_info_symmetric _ _ _ N1 N2 Hcover) as [t Ht].
  destruct (get_stack_info_keys _ _ _ _ Ht) as [_ Hkeys].
  pose proof (get_stack_info_records _ _ _ _ Ht) as Hall.
  assert (Hn : ~ Forall (fun item : string * member_dict => complete item.2) t).
  { intros Hc. apply Exists_exists in Hmiss as (v & Hv & Hnot).
    assert (Hk : index_of v ∈ t.*1).
    { apply Hkeys, list_elem_of_fmap. eauto. }
    apply list_elem_of_fmap in Hk as ([k m] & Hk & Hin). cbn in Hk. subst k.
    rewrite Forall_forall in Hc, Hall.
    destruct (Hc _ Hin) as (_ & _ & Hsn). destruct (Hall _ Hin) as [_ Hiff].
    cbn in *. apply Hnot, Hiff, Hsn. }
  assert (He : result (evaluate_results t (value var)) = Raise (KeyError "status")).
  { unfold evaluate_results. rewrite result_bind. cbn [logging_debug emit result snd].
    rewrite result_bind, for_each_check_collected; [reflexivity| |exact Hn].
    eapply Forall_impl; [exact Hall|]. intros item [(_ & Hnum & Hst) _]. auto. }
  destruct (main_is_check_stack net argv args opts Hp Hg Hm) as [Hres Htr].
  destruct (check_stack_collected net args t var Ht Hget) as [Hres' Htr'].
  destruct (report_incomplete t (value var) Hn) as [Hout _].
  split; [eauto|]. split.
  - rewrite Hres, Hres'. unfold report. now rewrite result_bind, He.
  - rewrite Htr, Htr', app_assoc, stdout_app, (parsers_stdout argv args opts Hp Hg).
    rewrite !stdout_app, (get_stack_info_returns_stdout _ _ _ _ Ht).
    rewrite (get_ring_status_stdout _ _ _ _ Hget), Hout. reflexivity.
Qed.

Lemma main_member_without_state_witness :
  let net := agent_of [number_1001;
                       {| oid := "iso.3.6.1.4.1.9.9.500.1.2.1.1.1.2001"; value := "2" |}]
                      [state_1001] (Some "1") in
  (exists t, result (get_stack_info net "192.0.2.1" "Public") = Return t) /\
  result (main net (check_host "192.0.2.1")) = Raise (KeyError "status") /\
  stdout (trace (main net (check_host "192.0.2.1"))) = [].
Proof.
  intros net.
  refine (main_member_without_state net (check_host "192.0.2.1") _ _
            {| oid := "iso.3.6.1.4.1.9.9.500.1.1.3.0"; value := "1" |}
            eq_refl eq_refl _ _ _ _ _).
  - vm_compute. discriminate.
  - vm_compute. discriminate.
  - repeat constructor; vm_compute;
      repeat first [apply list_elem_of_here | apply list_elem_of_further].
  - apply Exists_cons_tl, Exists_cons_hd. vm_compute. intros H.
    apply list_elem_of_singleton in H. discriminate H.
  - vm_compute. reflexivity.
Defined.

(** ** The option loop of parse_args *)

Lemma parse_option_loop_result (opts : list cli_option) (s : options_dict) :
  existsb is_help opts = false ->
  result (for_each opts parse_option s) =
  (if has_version opts then SysExit 0
   else Return {| remote_ip :=
                    fold_left (fun acc o => match o with OptHost a => Some a | _ => acc end)
                              opts (remote_ip s);
                  opt_community :=
                    fold_left (fun acc o => match o with OptCommunity a => a | _ => acc end)
                              opts (opt_community s) |}) /\
  stdout (trace (for_each opts parse_option s)) =
  (if has_version opts then [Print version_line] else []) /\
  requests (trace (for_each opts parse_option s)) = [].
Proof.
  revert s. induction opts as [|o opts IH]; intros s Hh.
  - destruct s; repeat split; reflexivity.
  - cbn [for_each]. rewrite result_bind, trace_bind, stdout_app, requests_app.
    destruct o; cbn in Hh; try discriminate.
    + repeat split; reflexivity.
    + destruct (IH {| remote_ip := Some a; opt_community := opt_community s |} Hh)
        as (Hr & Ho & Hq).
      cbn [parse_option result trace fst snd mret py_ret].
      rewrite Hr, Ho, Hq. repeat split; reflexivity.
    + destruct (IH {| remote_ip := remote_ip s; opt_community := a |} Hh) as (Hr & Ho & Hq).
      cbn [parse_option result trace fst snd mret py_ret].
      rewrite Hr, Ho, Hq. repeat split; reflexivity.
    + destruct (IH s Hh) as (Hr & Ho & Hq).
      cbn [parse_option result trace fst snd mret py_ret mbind py_bind emit logging_debug app].
      rewrite Hr, Ho, Hq. repeat split; reflexivity.
Qed.

Lemma parse_args_with_host (argv : command_line) (h : string) :
  existsb is_help (options argv) = false ->
  has_version (options argv) = false ->
  last_host (options argv) = Some h ->
  result (parse_args argv) =
  Return {| remote_ip := Some h; opt_community := last_community (options argv) |}.
Proof.
  intros Hh Hv Hhost.
  destruct (parse_option_loop_result (options argv)
              {| remote_ip := None; opt_community := "Public" |} Hh) as (Hr & _).
  rewrite Hv in Hr. cbn [remote_ip opt_community] in Hr.
  fold (last_host (options argv)) in Hr. fold (last_community (options argv)) in Hr.
  rewrite parse_args_unfold, !result_bind, Hr, Hhost. reflexivity.
Qed.

Lemma parse_args_version (argv : command_line) :
  existsb is_help (options argv) = false ->
  has_version (options argv) = true ->
  result (parse_args argv) = SysExit 0 /\
  stdout (trace (parse_args argv)) = [Print version_line] /\
  requests (trace (parse_args argv)) = [].
Proof.
  intros Hh Hv.
  destruct (parse_option_loop_result (options argv)
              {| remote_ip := None; opt_community := "Public" |} Hh) as (Hr & Ho & Hq).
  rewrite Hv in Hr, Ho.
  rewrite parse_args_unfold, !result_bind, !trace_bind, stdout_app, requests_app.
  rewrite Hr, Ho, Hq. repeat split; reflexivity.
Qed.

(** X14: [parse_args] on options without -h and -v.  With a host among them
    it returns the last -H value and the last -c value ("Public" without
    one) and prints nothing; without a host it prints "Requires host to
    check" and the usage text and exits with UNKNOWN.  It never touches the
    network. *)
Theorem parse_args_host_or_usage (argv : command_line) :
  existsb is_help (options argv) = false ->
  has_version (options argv) = false ->
  (forall h, last_host (options argv) = Some h ->
     result (parse_args argv) =
     Return {| remote_ip := Some h; opt_community := last_community (options argv) |} /\
     stdout (trace (parse_args argv)) = []) /\
  (last_host (options argv) = None ->
     result (parse_args argv) = SysExit UNKNOWN /\
     stdout (trace (parse_args argv)) = [Print "Requires host to check"; Print usage_text]) /\
  requests (trace (parse_args argv)) = [].
Proof.
  intros Hh Hv.
  destruct (parse_option_loop_result (options argv)
              {| remote_ip := None; opt_community := "Public" |} Hh) as (Hr & Ho & Hq).
  rewrite Hv in Hr, Ho. cbn [remote_ip opt_community] in Hr.
  fold (last_host (options argv)) in Hr. fold (last_community (options argv)) in Hr.
  rewrite parse_args_unfold.
  rewrite !result_bind, !trace_bind, !stdout_app, !requests_app, Hr, Ho, Hq.
  split; [|split].
  - intros h Hhost. rewrite Hhost. cbn. split; reflexivity.
  - intros Hhost. rewrite Hhost. cbn. split; reflexivity.
  - destruct (last_host (options argv)); reflexivity.
Qed.

Lemma parse_args_host_or_usage_witness :
  (result (parse_args {| options := [OptCommunity "secret"; OptHost "192.0.2.1"];
                         subcommand := None |}) =
   Return {| remote_ip := Some "192.0.2.1"; opt_community := "secret" |}) /\
  (result (parse_args {| options := [OptDebug]; subcommand := None |}) = SysExit UNKNOWN /\
   stdout (trace (parse_args {| options := [OptDebug]; subcommand := None |})) =
   [Print "Requires host to check"; Print usage_text]).
Proof.
  split.
  - apply (proj1 (parse_args_host_or_usage
                    {| options := [OptCommunity "secret"; OptHost "192.0.2.1"];
                       subcommand := None |} eq_refl eq_refl) "192.0.2.1" eq_refl).
  - apply (proj1 (proj2 (parse_args_host_or_usage
                           {| options := [OptDebug]; subcommand := None |}
                           eq_refl eq_refl)) eq_refl).
Defined.

(** ** main and the two parsers *)

Lemma py_eq {A} (m1 m2 : py A) :
  trace m1 = trace m2 -> result m1 = result m2 -> m1 = m2.
Proof. destruct m1, m2. cbn. congruence. Qed.

Lemma bind_ext {A B} (m : py A) (k1 k2 : A -> py B) :
  (forall a, k1 a = k2 a) -> m ≫= k1 = m ≫= k2.
Proof.
  intros Hk. destruct m as [tr [a| |]]; [|reflexivity|reflexivity].
  unfold mbind, py_bind. now rewrite Hk.
Qed.

Lemma parser_parse_args_Return (argv : command_line) (args : Namespace) :
  result (parser_parse_args argv) = Return args ->
  parser_parse_args argv = mret args /\
  existsb is_help (options argv) = false /\
  last_host (options argv) = Some (host args) /\
  community args = last_community (options argv) /\
  subparser_name args = part_name <$> subcommand argv.
Proof.
  intros Hr. split; [|split; [|split; [|split]]].
  - apply py_eq; [now apply (parser_parse_args_trace _ args) | exact Hr].
  - unfold parser_parse_args in Hr.
    destruct (existsb is_help (options argv)); [discriminate|reflexivity].
  - now apply parser_parse_args_host.
  - now apply parser_parse_args_community.
  - unfold parser_parse_args in Hr.
    destruct (existsb is_help (options argv)); [discriminate|].
    rewrite result_bind in Hr.
    destruct (result (match subcommand argv with
                      | Some sub => subparser_parse_args sub
                      | None => mret ()
                      end)); try discriminate.
    destruct (last_host (options argv)); [|discriminate].
    injection Hr as <-. reflexivity.
Qed.

(** X15: without a host the run ends inside argparse.  If -h is among the
    options the whole run is argparse's help and exit status 0; otherwise it
    is one argparse error and exit status 2.  So the program's own check for
    a missing host (lines 210-212), its usage text and the UNKNOWN status are
    never reached from [main], and no request is sent. *)
Theorem main_without_host_ends_in_argparse (net : network) (argv : command_line) :
  last_host (options argv) = None ->
  (existsb is_help (options argv) = true ->
   main net argv = ([ArgparseHelp], SysExit 0)) /\
  (existsb is_help (options argv) = false ->
   exists msg, main net argv = ([ArgparseError msg], SysExit 2)).
Proof.
  intros Hh. split; intros Hhelp.
  - unfold main, parser_parse_args. rewrite Hhelp. reflexivity.
  - assert (Hp : exists msg, parser_parse_args argv = ([ArgparseError msg], SysExit 2)).
    { unfold parser_parse_args, subparser_parse_args, argparse_error. rewrite Hhelp, Hh.
      destruct (subcommand argv) as [sub|];
        repeat (match goal with |- context [if ?b then _ else _] => destruct b end);
        eexists; reflexivity. }
    destruct Hp as [msg Hp]. exists msg. unfold main. rewrite Hp. reflexivity.
Qed.

Lemma main_without_host_ends_in_argparse_witness :
  main (agent_of [number_1001] [state_1001] (Some "1"))
       {| options := [OptDebug; OptHelp]; subcommand := None |}
  = ([ArgparseHelp], SysExit 0) /\
  exists msg,
    main (agent_of [number_1001] [state_1001] (Some "1"))
         {| options := [OptVersion]; subcommand := None |}
    = ([ArgparseError msg], SysExit 2).
Proof.
  split.
  - apply (proj1 (main_without_host_ends_in_argparse
                    (agent_of [number_1001] [state_1001] (Some "1"))
                    {| options := [OptDebug; OptHelp]; subcommand := None |} eq_refl) eq_refl).
  - apply (proj2 (main_without_host_ends_in_argparse
                    (agent_of [number_1001] [state_1001] (Some "1"))
                    {| options := [OptVersion]; subcommand := None |} eq_refl) eq_refl).
Defined.

(** X16: the version option.  On a command line argparse accepts (so with a
    host) that has -v among its options, the program prints "Cisco Stack
    plugin version 1.1", exits with status 0 and sends no request, with or
    without the part sub-command. *)
Theorem main_version (net : network) (argv : command_line) (args : Namespace) :
  result (parser_parse_args argv) = Return args ->
  has_version (options argv) = true ->
  result (main net argv) = SysExit 0 /\
  stdout (trace (main net argv)) = [Print version_line] /\
  requests (trace (main net argv)) = [].
Proof.
  intros Hp Hv. destruct (parser_parse_args_Return _ _ Hp) as (Hpe & Hh & _).
  destruct (parse_args_version argv Hh Hv) as (Hr' & Ho' & Hq').
  unfold main. rewrite Hpe, mret_bind, result_bind, trace_bind, Hr', app_nil_r. auto.
Qed.

Lemma main_version_witness :
  let argv := {| options := [OptHost "192.0.2.1"; OptVersion]; subcommand := None |} in
  result (main (agent_of [] [] None) argv) = SysExit 0 /\
  stdout (trace (main (agent_of [] [] None) argv)) = [Print version_line] /\
  requests (trace (main (agent_of [] [] None) argv)) = [].
Proof.
  intros argv. refine (main_version (agent_of [] [] None) argv _ eq_refl eq_refl).
Defined.

(** ** The part sub-command *)

Lemma get_part_status_test_all (S E tS tE : list Z) :
  let run := get_part_status_test (Some S) (Some E) (Some tS) (Some tE) in
  result run = Return 0 /\ length (stdout (trace run)) = 9%nat /\ requests (trace run) = [].
Proof.
  unfold get_part_status_test, join_ints, print. cbn.
  repeat case_decide; destruct (dict_eqb _ _); cbn; repeat split; reflexivity.
Qed.

Lemma get_part_status_test_no_tS (S E : list Z) (tE : option (list Z)) :
  let run := get_part_status_test (Some S) (Some E) None tE in
  result run = Raise (TypeError "'NoneType' object is not iterable") /\
  stdout (trace run) =
  [ Print ("switchnumbers " +:+ String.concat " " (pretty <$> S));
    Print ("expectedstate " +:+ String.concat " " (pretty <$> E)) ] /\
  requests (trace run) = [].
Proof. repeat split; reflexivity. Qed.

Lemma get_part_status_test_no_tE (S E tS : list Z) :
  let run := get_part_status_test (Some S) (Some E) (Some tS) None in
  result run = Raise (TypeError "'NoneType' object is not iterable") /\
  length (stdout (trace run)) = 3%nat /\
  requests (trace run) = [].
Proof. repeat split; reflexivity. Qed.

Lemma parser_part_required (argv : command_line) (args : Namespace) :
  result (parser_parse_args argv) = Return args ->
  is_Some (subparser_name args) ->
  is_Some (switchnumbers args) /\ is_Some (expectedstate args).
Proof.
  unfold parser_parse_args.
  destruct (existsb is_help (options argv)); [discriminate|].
  rewrite result_bind.
  destruct (subcommand argv) as [sub|].
  - unfold subparser_parse_args.
    repeat (match goal with
            | |- context [if negb ?b then _ else _] => destruct b eqn:?; cbn [negb]
            end; try discriminate).
    cbn [result mret py_ret snd].
    destruct (last_host (options argv)); [|discriminate].
    intros [= <-] _. cbn.
    match goal with H : _ && _ = true |- _ => apply andb_prop in H as [H1 H2] end.
    apply bool_decide_eq_true in H1, H2. auto.
  - cbn. destruct (last_host (options argv)); [|discriminate].
    intros [= <-] [? Hs]. discriminate.
Qed.

Lemma main_part_branch
    (net : network) (argv : command_line) (args : Namespace) (opts : options_dict) :
  result (parser_parse_args argv) = Return args ->
  result (parse_args argv) = Return opts ->
  subparser_name args = Some "part" ->
  forall part : py (option table * option string),
    (if test args
     then part_result ← get_part_status_test (switchnumbers args) (expectedstate args)
                          (tswitchnumbers args) (texpectedstate args);
          mret (None, None)
     else part_result ← get_part_status (switchnumbers args) (expectedstate args);
          mret (None, None)) = part ->
    result (main net argv) =
    match result part with
    | Return _ => Raise (UnboundLocalError "stack")
    | SysExit code => SysExit code
    | Raise e => Raise e
    end /\
    trace (main net argv) =
    ((trace (parser_parse_args argv) ++ trace (parse_args argv)) ++ trace part)%list.
Proof.
  intros Hp Hg Hsub part Hpart. unfold main.
  rewrite !result_bind, !trace_bind, Hp. rewrite !result_bind, !trace_bind, Hg.
  destruct (decide (subparser_name args = Some "part")); [|contradiction].
  rewrite ?result_bind, ?trace_bind, Hpart.
  destruct part as [tr [[stack ring]| |]]; cbn [result trace fst snd];
    rewrite ?app_nil_r, ?app_assoc; [|split; reflexivity|split; reflexivity].
  pose proof (f_equal result Hpart) as Hnone.
  assert (stack = None).
  { destruct (test args); apply result_bind_Return in Hnone as (x & _ & Hx);
      cbn in Hx; congruence. }
  subst stack. cbn. rewrite app_nil_r. split; reflexivity.
Qed.

Lemma main_part_raises
    (net : network) (argv : command_line) (args : Namespace) (opts : options_dict) :
  result (parser_parse_args argv) = Return args ->
  result (parse_args argv) = Return opts ->
  subparser_name args = Some "part" ->
  exists e, result (main net argv) = Raise e.
Proof.
  intros Hp Hg Hsub.
  destruct (parser_part_required _ _ Hp) as [[S HS] [E HE]]; [rewrite Hsub; eauto|].
  destruct (main_part_branch net argv args opts Hp Hg Hsub _ eq_refl) as [Hres _].
  rewrite Hres, HS, HE. destruct (test args); [|eexists; reflexivity].
  rewrite result_bind.
  destruct (tswitchnumbers args) as [tS|]; [destruct (texpectedstate args) as [tE|]|].
  - destruct (get_part_status_test_all S E tS tE) as (Hr & _). rewrite Hr. eauto.
  - destruct (get_part_status_test_no_tE S E tS) as (Hr & _). rewrite Hr. eauto.
  - destruct (get_part_status_test_no_tS S E (texpectedstate args)) as (Hr & _).
    rewrite Hr. eauto.
Qed.



(** X18: the aliases do not select the part branch.  [main] compares the
    sub-command name with 'part' only, so when argparse accepts a command
    line whose sub-command is spelled with another name ('particular' or
    'partial'), the run is, event for event and in its outcome, the run of
    the same options without any sub-command: the ordinary stack check. *)
Theorem main_part_alias_runs_check
    (net : network) (os : list cli_option) (sub : part_command) (args : Namespace) :
  part_name sub <> "part" ->
  result (parser_parse_args {| options := os; subcommand := Some sub |}) = Return args ->
  main net {| options := os; subcommand := Some sub |} =
  main net {| options := os; subcommand := None |}.
Proof.
  intros Hname Hp.
  destruct (parser_parse_args_Return _ _ Hp) as (Hpe & Hh & Hhost & Hcomm & Hsn).
  cbn [options subcommand] in Hh, Hhost, Hcomm, Hsn.
  assert (Hp2 : parser_parse_args {| options := os; subcommand := None |} =
                mret {| host := host args; community := community args;
                        debug := has_debug os; version := has_version os;
                        subparser_name := None; switchnumbers := None;
                        expectedstate := None; test := false;
                        tswitchnumbers := None; texpectedstate := None |}).
  { unfold parser_parse_args. cbn [options subcommand]. rewrite Hh, Hhost, Hcomm.
    reflexivity. }
  unfold main. rewrite Hpe, Hp2, !mret_bind.
  change (parse_args {| options := os; subcommand := Some sub |})
    with (parse_args {| options := os; subcommand := None |}).
  apply bind_ext. intros opts.
  destruct (decide (subparser_name args = Some "part")) as [E|_].
  { rewrite Hsn in E. cbn in E. congruence. }
  cbn [subparser_name host community].
  destruct (decide (None = Some "part")) as [E|_]; [discriminate|].
  apply bind_ext. intros [stack ring].
  apply bind_ext. intros stack'. apply bind_ext. intros ring'.
  apply bind_ext. intros [r m]. reflexivity.
Qed.

Lemma main_part_alias_runs_check_witness :
  let sub := {| part_name := "partial"; opt_S := Some [1]; opt_E := Some [4];
                opt_T := false; opt_tS := None; opt_tE := None |} in
  main (two_member_agent "4" "4" "1")
       {| options := [OptHost "192.0.2.1"]; subcommand := Some sub |} =
  main (two_member_agent "4" "4" "1")
       {| options := [OptHost "192.0.2.1"]; subcommand := None |}.
Proof.
  intros sub.
  refine (main_part_alias_runs_check (two_member_agent "4" "4" "1")
            [OptHost "192.0.2.1"] sub _ _ eq_refl).
  vm_compute. discriminate.
Defined.

(** ** How a run can end *)

Ltac not_print_args := unfold not_print_args; intros ? Heq; discriminate Heq.

Lemma plugin_exit_not_print_args (exitcode : Z) (message : string) :
  Forall not_print_args (trace (plugin_exit exitcode message)).
Proof. unfold plugin_exit, print, logging_debug. trace_steps; not_print_args. Qed.

Lemma before_report_not_print_args (net : network) (argv : command_line) (h c : string)
    (S E tS tE : option (list Z)) :
  Forall not_print_args (trace (parser_parse_args argv)) /\
  Forall not_print_args (trace (parse_args argv)) /\
  Forall not_print_args (trace (get_stack_info net h c)) /\
  Forall not_print_args (trace (get_ring_status net h c)) /\
  Forall not_print_args (trace (get_part_status_test S E tS tE)).
Proof.
  split; [|split; [|split; [|split]]].
  - unfold parser_parse_args, subparser_parse_args, argparse_error.
    trace_steps; not_print_args.
  - unfold parse_args, parse_option, usage, print, logging_debug.
    trace_steps; not_print_args.
  - unfold get_stack_info, session_bulkwalk, add_member, set_status, setitem_in,
      logging_debug.
    trace_steps; try apply plugin_exit_not_print_args; not_print_args.
  - unfold get_ring_status, session_get, logging_debug.
    trace_steps; try apply plugin_exit_not_print_args; not_print_args.
  - unfold get_part_status_test, join_ints, print.
    trace_steps; not_print_args.
Qed.

Lemma main_not_print_args (net : network) (argv : command_line) :
  Forall not_print_args (trace (main net argv)).
Proof.
  unfold main.
  apply bind_trace_Forall; [apply (before_report_not_print_args net argv "" "" None None None None)|].
  intros args.
  apply bind_trace_Forall; [apply (before_report_not_print_args net argv "" "" None None None None)|].
  intros opts.
  apply bind_trace_Forall.
  { destruct (decide (subparser_name args = Some "part")).
    - destruct (test args).
      + apply bind_trace_Forall; [|intros ?; apply mret_trace_Forall].
        apply (before_report_not_print_args net argv "" "").
      + apply bind_trace_Forall; [|intros ?; apply mret_trace_Forall].
        apply mret_trace_Forall.
    - apply bind_trace_Forall;
        [apply (before_report_not_print_args net argv _ _ None None None None)|].
      intros stack. apply bind_trace_Forall; [|intros ?; apply mret_trace_Forall].
      apply (before_report_not_print_args net argv _ _ None None None None). }
  intros [stack ring].
  apply bind_trace_Forall; [destruct stack; constructor|]. intros stack'.
  apply bind_trace_Forall; [destruct ring; constructor|]. intros ring'.
  apply bind_trace_Forall.
  { eapply Forall_impl; [apply evaluate_results_trace_debug|].
    intros [] He; try discriminate He; not_print_args. }
  intros [r m]. rewrite plugin_exit_bind. apply plugin_exit_not_print_args.
Qed.

Lemma get_stack_info_cases (net : network) (h c : string) :
  result (get_stack_info net h c) = SysExit CRITICAL \/
  (exists k, result (get_stack_info net h c) = Raise (KeyError k)) \/
  (exists t, result (get_stack_info net h c) = Return t).
Proof.
  destruct (decide (bulkwalk (net h c) OID_NUMBER = [])) as [E1|N1].
  { left. now rewrite (get_stack_info_no_table _ _ _ E1). }
  destruct (decide (bulkwalk (net h c) OID_STATE = [])) as [E2|N2].
  { left. now rewrite (get_stack_info_no_status _ _ _ N1 E2). }
  destruct (Forall_Exists_dec
              (fun v => index_of v ∈ (index_of <$> bulkwalk (net h c) OID_NUMBER))
              (fun v => index_of v ∉ (index_of <$> bulkwalk (net h c) OID_NUMBER))
              (fun v => decide (index_of v ∈ (index_of <$> bulkwalk (net h c) OID_NUMBER)))
              (bulkwalk (net h c) OID_STATE)) as [HF|HE].
  - right. right. now apply get_stack_info_symmetric.
  - right. left. destruct (get_stack_info_asymmetric _ _ _ N1 HE) as (k & Hk & _). eauto.
Qed.

Lemma check_stack_outcome (net : network) (args : Namespace) :
  result (check_stack net args) = SysExit OK \/
  result (check_stack net args) = SysExit WARNING \/
  result (check_stack net args) = SysExit CRITICAL \/
  exists e, result (check_stack net args) = Raise e.
Proof.
  unfold check_stack. rewrite result_bind.
  destruct (get_stack_info_cases net (host args) (community args))
    as [Hs|[[k Hs]|[t Hs]]]; rewrite Hs; [auto|eauto|].
  rewrite result_bind.
  destruct (get (net (host args) (community args)) OID_RING) as [var|] eqn:Hg.
  2:{ rewrite (get_ring_status_no_value _ _ _ Hg). auto. }
  rewrite (get_ring_status_value _ _ _ _ Hg). cbn [result snd].
  rewrite check_stack_tail.
  destruct (decide (Forall (fun item : string * member_dict => complete item.2) t))
    as [Hc|Hc].
  - destruct (report_complete t (value var) Hc) as [Hr _]. rewrite Hr.
    destruct (verdict_range t (value var)) as [H|[H|H]]; rewrite H; auto.
  - destruct (report_incomplete t (value var) Hc) as [_ (e & He & _)]. eauto.
Qed.

Lemma parser_parse_args_exit (argv : command_line) (code : Z) :
  result (parser_parse_args argv) = SysExit code -> code = 0 \/ code = 2.
Proof.
  unfold parser_parse_args, subparser_parse_args, argparse_error.
  destruct (existsb is_help (options argv)); [intros [= <-]; auto|].
  destruct (subcommand argv) as [sub|];
    repeat (match goal with |- context [if ?b then _ else _] => destruct b end);
    destruct (last_host (options argv)); cbn; intros [= <-]; auto.
Qed.

Lemma parser_parse_args_no_raise (argv : command_line) (e : exception) :
  result (parser_parse_args argv) <> Raise e.
Proof.
  unfold parser_parse_args, subparser_parse_args, argparse_error.
  destruct (existsb is_help (options argv)); [discriminate|].
  destruct (subcommand argv) as [sub|];
    repeat (match goal with |- context [if ?b then _ else _] => destruct b end);
    destruct (last_host (options argv)); cbn; discriminate.
Qed.

(** X19: how a run of the program can end.  Whatever the command line and
    the agent, [main] never returns: it ends with exit status 0, 1 or 2, or
    in an uncaught exception.  It never exits with UNKNOWN (3), and the
    [print(args)] after [plugin_exit] (line 452) never runs. *)
Theorem main_outcome (net : network) (argv : command_line) :
  (result (main net argv) = SysExit 0 \/
   result (main net argv) = SysExit 1 \/
   result (main net argv) = SysExit 2 \/
   exists e, result (main net argv) = Raise e) /\
  result (main net argv) <> SysExit UNKNOWN /\
  (forall a, PrintArgs a ∉ trace (main net argv)).
Proof.
  assert (Hres : result (main net argv) = SysExit 0 \/
                 result (main net argv) = SysExit 1 \/
                 result (main net argv) = SysExit 2 \/
                 exists e, result (main net argv) = Raise e).
  { destruct (result (parser_parse_args argv)) as [args|code|e] eqn:Hp.
    - destruct (parser_parse_args_Return _ _ Hp) as (_ & Hh & Hhost & _).
      destruct (has_version (options argv)) eqn:Hv.
      { left. destruct (parse_args_version argv Hh Hv) as (Hr' & _).
        destruct (parser_parse_args_Return _ _ Hp) as (Hpe & _).
        unfold main. now rewrite Hpe, mret_bind, result_bind, Hr'. }
      pose proof (parse_args_with_host argv _ Hh Hv Hhost) as Hg.
      destruct (decide (subparser_name args = Some "part")) as [Hsub|Hsub].
      + do 3 right. apply (main_part_raises net argv args _ Hp Hg Hsub).
      + destruct (main_is_check_stack net argv args _ Hp Hg Hsub) as [Hr _]. rewrite Hr.
        apply check_stack_outcome.
    - unfold main. rewrite result_bind, Hp.
      destruct (parser_parse_args_exit _ _ Hp) as [-> | ->]; auto.
    - exfalso. exact (parser_parse_args_no_raise _ _ Hp). }
  split; [exact Hres|]. split.
  - destruct Hres as [H|[H|[H|[e H]]]]; rewrite H; discriminate.
  - intros a Hin. pose proof (main_not_print_args net argv) as HF.
    rewrite Forall_forall in HF. exact (HF _ Hin a eq_refl).
Qed.

(** ** parse_args stops at the first -h or -v *)

Lemma bind_assoc {A B C} (m : py A) (f : A -> py B) (g : B -> py C) :
  (m ≫= f) ≫= g = m ≫= (fun a => f a ≫= g).
Proof.
  destruct m as [tr [a| |]]; [|reflexivity|reflexivity].
  unfold mbind, py_bind. destruct (f a) as [tr1 [b| |]]; [|reflexivity|reflexivity].
  destruct (g b) as [tr2 o]. now rewrite app_assoc.
Qed.

Lemma for_each_app {A S} (l1 l2 : list A) (body : A -> S -> py S) (s : S) :
  for_each (l1 ++ l2) body s = (s' ← for_each l1 body s; for_each l2 body s').
Proof.
  revert s. induction l1 as [|x l1 IH]; intros s.
  - cbn [app for_each]. now rewrite mret_bind.
  - cbn [app for_each]. rewrite bind_assoc. apply bind_ext. intros s'. apply IH.
Qed.

(** X20: [parse_args] obeys the first -h or -v it meets.  After options that
    are neither, a -v makes it print "Cisco Stack plugin version 1.1" and
    exit with status 0, and a -h makes it print the usage text and exit with
    UNKNOWN, whatever follows on the command line and whether or not a host
    was given. *)
Theorem parse_args_first_help_or_version
    (before after : list cli_option) (sub : option part_command) :
  existsb is_help before = false ->
  has_version before = false ->
  (let run := parse_args {| options := before ++ OptVersion :: after; subcommand := sub |} in
   result run = SysExit 0 /\ stdout (trace run) = [Print version_line]) /\
  (let run := parse_args {| options := before ++ OptHelp :: after; subcommand := sub |} in
   result run = SysExit UNKNOWN /\ stdout (trace run) = [Print usage_text]).
Proof.
  intros Hh Hv.
  destruct (parse_option_loop_result before
              {| remote_ip := None; opt_community := "Public" |} Hh) as (Hr & Ho & _).
  rewrite Hv in Hr, Ho.
  split; cbn zeta; rewrite parse_args_unfold; cbn [options];
    rewrite for_each_app; cbn [for_each];
    repeat progress (rewrite ?result_bind, ?trace_bind, ?stdout_app, ?Hr, ?Ho);
    split; reflexivity.
Qed.

Lemma parse_args_first_help_or_version_witness :
  (let run := parse_args {| options := [OptDebug] ++ OptVersion :: [OptHost "192.0.2.1"];
                            subcommand := None |} in
   result run = SysExit 0 /\ stdout (trace run) = [Print version_line]) /\
  (let run := parse_args {| options := [OptDebug] ++ OptHelp :: [OptHost "192.0.2.1"];
                            subcommand := None |} in
   result run = SysExit UNKNOWN /\ stdout (trace run) = [Print usage_text]).
Proof.
  apply (parse_args_first_help_or_version [OptDebug]); reflexivity.
Defined.

(** ** The join of the two walks *)

Lemma last_entry_init (k : string) (walk : list SNMPVariable) (init : option SNMPVariable) :
  fold_left (fun acc v => if decide (index_of v = k) then Some v else acc) walk init =
  match last_entry k walk with Some v => Some v | None => init end.
Proof.
  unfold last_entry. revert init. induction walk as [|v walk IH]; intros init; [reflexivity|].
  cbn [fold_left]. rewrite IH, (IH (if decide (index_of v = k) then Some v else None)).
  destruct (fold_left _ walk None); [reflexivity|]. case_decide; reflexivity.
Qed.

Lemma last_entry_cons (k : string) (v : SNMPVariable) (walk : list SNMPVariable) :
  last_entry k (v :: walk) =
  match last_entry k walk with
  | Some v' => Some v'
  | None => if decide (index_of v = k) then Some v else None
  end.
Proof. unfold last_entry at 1. cbn [fold_left]. apply last_entry_init. Qed.

Lemma number_table_lookup (k : string) (walk : list SNMPVariable) (t : table) :
  assoc_get k (number_table walk t) =
  match last_entry k walk with
  | Some v => Some (number_record v)
  | None => assoc_get k t
  end.
Proof.
  revert t. induction walk as [|v walk IH]; intros t; [reflexivity|].
  cbn [number_table fold_left]. fold (number_table walk (dict_set (index_of v) (number_record v) t)).
  rewrite IH, last_entry_cons, assoc_get_dict_set.
  destruct (last_entry k walk); [reflexivity|].
  destruct (decide (k = index_of v)) as [->|Hne].
  - case_decide; [reflexivity|contradiction].
  - case_decide; [congruence|reflexivity].
Qed.

Lemma number_table_keys_order (walk : list SNMPVariable) (t : table) :
  NoDup (t.*1 ++ (index_of <$> walk)) ->
  (number_table walk t).*1 = (t.*1 ++ (index_of <$> walk))%list.
Proof.
  revert t. induction walk as [|v walk IH]; intros t Hd.
  - cbn. now rewrite app_nil_r.
  - cbn [number_table fold_left fmap list_fmap] in *.
    fold (number_table walk (dict_set (index_of v) (number_record v) t)).
    assert (Hv : index_of v ∉ t.*1).
    { apply NoDup_app in Hd as (_ & Hd & _). intros Hin. apply (Hd _ Hin), list_elem_of_here. }
    rewrite IH; rewrite (dict_set_keys_absent _ _ _ Hv), <- app_assoc; [reflexivity|exact Hd].
Qed.

Lemma for_each_set_status_values (walk : list SNMPVariable) (t t' : table) :
  result (for_each walk set_status t) = Return t' ->
  forall k m', assoc_get k t' = Some m' ->
    exists m, assoc_get k t = Some m /\
              m' !! "number" = m !! "number" /\
              m' !! "status_num" =
              match last_entry k walk with
              | Some v => Some (value v)
              | None => m !! "status_num"
              end.
Proof.
  revert t. induction walk as [|v walk IH]; intros t Hr k m' Hm'.
  - cbn in Hr. injection Hr as <-. exists m'. auto.
  - cbn [for_each] in Hr. apply result_bind_Return in Hr as (t1 & H1 & Hr).
    apply set_status_Return in H1 as (m0 & Hm0 & _ & Hget).
    destruct (IH t1 Hr k m' Hm') as (m1 & Hm1 & Hnum & Hsn).
    rewrite Hget in Hm1. rewrite last_entry_cons.
    destruct (decide (k = index_of v)) as [->|Hne].
    + injection Hm1 as <-. exists m0. split; [exact Hm0|]. split.
      * rewrite Hnum, !lookup_insert_ne by discriminate. reflexivity.
      * rewrite Hsn. destruct (last_entry (index_of v) walk); [reflexivity|].
        rewrite lookup_insert_ne by discriminate. rewrite lookup_insert_eq.
        case_decide; [reflexivity|contradiction].
    + exists m1. split; [exact Hm1|]. split; [exact Hnum|].
      rewrite Hsn. destruct (last_entry k walk); [reflexivity|].
      case_decide; [congruence|reflexivity].
Qed.

(** X21: the join is by index, and the last report wins.  In a table the
    collector returns, the record under an index holds, as 'number', the
    value of the last number-walk entry with that index and, as 'status_num',
    the value of the last state-walk entry with that index (none if there is
    no such entry).  When the number walk reports each index once, the
    table lists the members in the order of that walk. *)
Theorem get_stack_info_join (net : network) (h c : string) (t : table) :
  result (get_stack_info net h c) = Return t ->
  Forall (fun item =>
            item.2 !! "number" = value <$> last_entry item.1 (bulkwalk (net h c) OID_NUMBER) /\
            item.2 !! "status_num" = value <$> last_entry item.1 (bulkwalk (net h c) OID_STATE))
         t /\
  (NoDup (index_of <$> bulkwalk (net h c) OID_NUMBER) ->
   t.*1 = index_of <$> bulkwalk (net h c) OID_NUMBER).
Proof.
  intros Hr. destruct (get_stack_info_keys _ _ _ _ Hr) as [Hd _].
  destruct (get_stack_info_lookup _ _ _ _ Hr) as [Hkeys _].
  destruct (get_stack_info_returns _ _ _ _ Hr) as [N1 N2].
  rewrite (get_stack_info_walks _ _ _ N1 N2) in Hr. cbn [result snd] in Hr.
  apply join_status_Return in Hr. split.
  - apply Forall_forall. intros [k m'] Hin. cbn.
    apply (assoc_get_elem_of _ _ _ Hd) in Hin.
    destruct (for_each_set_status_values _ _ _ Hr _ _ Hin) as (m & Hm & Hnum & Hsn).
    rewrite number_table_lookup in Hm.
    destruct (last_entry k (bulkwalk (net h c) OID_NUMBER)) as [v|]; [|discriminate].
    injection Hm as <-. rewrite Hnum, Hsn. split.
    + unfold number_record. rewrite lookup_insert_ne by discriminate.
      now rewrite lookup_singleton_eq.
    + destruct (last_entry k (bulkwalk (net h c) OID_STATE)); [reflexivity|].
      unfold number_record. rewrite lookup_insert_ne by discriminate.
      now rewrite lookup_singleton_ne by discriminate.
  - intros Hnd. rewrite Hkeys. now apply (number_table_keys_order _ []).
Qed.

Lemma get_stack_info_join_witness :
  let net := agent_of
               [ {| oid := "iso.3.6.1.4.1.9.9.500.1.2.1.1.1.2001"; value := "2" |}; number_1001 ]
               [ {| oid := "iso.3.6.1.4.1.9.9.500.1.2.1.1.6.2001"; value := "9" |};
                 state_1001; state_2001 ] (Some "1") in
  exists t,
    result (get_stack_info net "192.0.2.1" "Public") = Return t /\
    Forall (fun item : string * member_dict =>
              item.2 !! "number" =
              value <$> last_entry item.1 (bulkwalk (net "192.0.2.1" "Public") OID_NUMBER) /\
              item.2 !! "status_num" =
              value <$> last_entry item.1 (bulkwalk (net "192.0.2.1" "Public") OID_STATE)) t /\
    t.*1 = ["2001"; "1001"].
Proof.
  intros net. eexists. split; [vm_compute; reflexivity|].
  match goal with |- Forall _ ?t /\ _ =>
    destruct (get_stack_info_join net "192.0.2.1" "Public" t) as [HF Hk]
  end.
  - vm_compute. reflexivity.
  - split; [exact HF|]. apply Hk. vm_compute.
    repeat (constructor; [intros H; repeat (apply elem_of_cons in H as [H|H]; [discriminate H|]);
                          now apply elem_of_nil in H|]).
    constructor.
Defined.

(** ** The debug option *)

Lemma main_unfold (net : network) (argv : command_line) :
  main net argv =
  (args ← parser_parse_args argv; parse_args argv ;; main_body net args).
Proof. reflexivity. Qed.

Lemma main_body_same_request (net : network) (a a' : Namespace) :
  same_request a a' -> main_body net a' = main_body net a.
Proof.
  intros (Hh & Hc & Hs & Ht & HS & HE & HtS & HtE). unfold main_body.
  rewrite Hh, Hc, Hs, Ht, HS, HE, HtS, HtE.
  apply bind_ext. intros [stack ring].
  apply bind_ext. intros stack'. apply bind_ext. intros ring'.
  apply bind_ext. intros [r m]. reflexivity.
Qed.

Lemma fold_left_skip {A B} (f : A -> B -> A) (l1 l2 : list B) (x : B) (init : A) :
  (forall acc, f acc x = acc) ->
  fold_left f (l1 ++ x :: l2) init = fold_left f (l1 ++ l2) init.
Proof. intros Hx. rewrite !fold_left_app. cbn. now rewrite Hx. Qed.

Lemma parser_parse_args_debug (before after : list cli_option) (sub : option part_command) :
  let argv := {| options := before ++ after; subcommand := sub |} in
  let argv' := {| options := before ++ OptDebug :: after; subcommand := sub |} in
  trace (parser_parse_args argv') = trace (parser_parse_args argv) /\
  match result (parser_parse_args argv'), result (parser_parse_args argv) with
  | Return a', Return a => same_request a a'
  | SysExit c', SysExit c => c' = c
  | Raise e', Raise e => e' = e
  | _, _ => False
  end.
Proof.
  intros argv argv'. subst argv argv'. unfold parser_parse_args. cbn [options subcommand].
  assert (Hh : existsb is_help (before ++ OptDebug :: after) = existsb is_help (before ++ after)).
  { rewrite !existsb_app. reflexivity. }
  assert (Hl : last_host (before ++ OptDebug :: after) = last_host (before ++ after)).
  { apply fold_left_skip. reflexivity. }
  assert (Hc : last_community (before ++ OptDebug :: after) = last_community (before ++ after)).
  { apply fold_left_skip. reflexivity. }
  rewrite Hh, Hl, Hc.
  destruct (existsb is_help (before ++ after)); [split; reflexivity|].
  rewrite !result_bind, !trace_bind.
  destruct (match sub with Some sub0 => subparser_parse_args sub0 | None => mret () end)
    as [tr [[]| |]]; cbn [result trace fst snd]; [|split; reflexivity|split; reflexivity].
  destruct (last_host (before ++ after)); split; try reflexivity.
  cbn. unfold same_request. cbn. repeat split; reflexivity.
Qed.

Lemma parse_option_debug_bind {B} (s : options_dict) (k : options_dict -> py B) :
  parse_option OptDebug s ≫= k =
  ((BasicConfig :: Debug "*** Debug mode started ***" :: trace (k s)), result (k s)).
Proof. unfold parse_option, mbind, py_bind. cbn. destruct (k s). reflexivity. Qed.

Lemma parse_args_debug (before after : list cli_option) (sub : option part_command) :
  let argv := {| options := before ++ after; subcommand := sub |} in
  let argv' := {| options := before ++ OptDebug :: after; subcommand := sub |} in
  result (parse_args argv') = result (parse_args argv) /\
  stdout (trace (parse_args argv')) = stdout (trace (parse_args argv)) /\
  requests (trace (parse_args argv')) = requests (trace (parse_args argv)).
Proof.
  intros argv argv'. subst argv argv'. rewrite !parse_args_unfold. cbn [options].
  rewrite !for_each_app. cbn [for_each].
  rewrite !bind_assoc.
  destruct (for_each before parse_option {| remote_ip := None; opt_community := "Public" |})
    as [tr [s| |]]; [|repeat split; reflexivity|repeat split; reflexivity].
  rewrite !result_bind, !trace_bind. cbn [result trace fst snd].
  rewrite (bind_assoc (parse_option OptDebug s)), parse_option_debug_bind.
  cbn [result trace fst snd]. rewrite !stdout_app, !requests_app.
  repeat split; reflexivity.
Qed.

(** X22: the debug option changes the log and nothing else.  Wherever -d
    stands among the options, the run with it has the same outcome, the same
    lines on stdout and the same SNMP requests as the run without it. *)
Theorem main_debug_option
    (net : network) (before after : list cli_option) (sub : option part_command) :
  let argv := {| options := before ++ after; subcommand := sub |} in
  let argv' := {| options := before ++ OptDebug :: after; subcommand := sub |} in
  result (main net argv') = result (main net argv) /\
  stdout (trace (main net argv')) = stdout (trace (main net argv)) /\
  requests (trace (main net argv')) = requests (trace (main net argv)).
Proof.
  intros argv argv'.
  destruct (parser_parse_args_debug before after sub) as [Htr Hres].
  destruct (parse_args_debug before after sub) as (Hr & Ho & Hq).
  fold argv argv' in Htr, Hres, Hr, Ho, Hq.
  rewrite !main_unfold, !result_bind, !trace_bind, !stdout_app, !requests_app, Htr.
  destruct (result (parser_parse_args argv')) as [a'|c'|e'],
           (result (parser_parse_args argv)) as [a|c|e];
    try contradiction; [|subst; repeat split; reflexivity|subst; repeat split; reflexivity].
  rewrite (main_body_same_request net a a' Hres).
  rewrite !result_bind, !trace_bind, !stdout_app, !requests_app, Hr, Ho, Hq.
  repeat split; reflexivity.
Qed.
